(** * Triton developer tools, server wrapper: [common.h] / [common.cc]

    A shallow embedding of the adaptation layer between the wrapper API and
    the native inference-server C API: the [Error] value type, the enum and
    string translators, the response allocator callbacks [ResponseAlloc] and
    [ResponseRelease], and the completion callback [InferResponseComplete].

    Conventions of the embedding.
    - Enum values, [size_t], [int64_t] and pointers are integers ([Z]); a C
      enum can carry any integer, so "unrecognized" inputs are ordinary
      values.  [nullptr] is [0].
    - A function writing through an out-parameter takes the content of the
      pointed-to cell before the call and returns its content after it.
    - Calls into the C library, the CUDA runtime and the native server are
      recorded in a trace of events; what they answer is given by a
      [Runtime]. *)

From Stdlib Require Import ZArith Bool.
From stdpp Require Import base strings list gmap pretty.

Local Open Scope string_scope.
Local Open Scope list_scope.
Local Open Scope Z_scope.

(** ** The native headers

    [triton/core/tritonserver.h] and [cuda_runtime_api.h] are included by
    [common.h] but are not part of this repository.  The enumerators and the
    pure helper functions that [common.cc] uses from them are taken as the
    fields of a class; the only law is that the three native memory-type
    enumerators are pairwise distinct, which the [switch] statements that use
    them as [case] labels require. *)

Class NativeHeaders := {
  (* TRITONSERVER_MemoryType *)
  TRITONSERVER_MEMORY_CPU : Z;
  TRITONSERVER_MEMORY_CPU_PINNED : Z;
  TRITONSERVER_MEMORY_GPU : Z;
  (* TRITONSERVER_ModelControlMode *)
  TRITONSERVER_MODEL_CONTROL_NONE : Z;
  TRITONSERVER_MODEL_CONTROL_POLL : Z;
  TRITONSERVER_MODEL_CONTROL_EXPLICIT : Z;
  (* TRITONSERVER_LogFormat *)
  TRITONSERVER_LOG_DEFAULT : Z;
  TRITONSERVER_LOG_ISO8601 : Z;
  (* TRITONSERVER_DataType *)
  TRITONSERVER_TYPE_INVALID : Z;
  TRITONSERVER_TYPE_BOOL : Z;
  TRITONSERVER_TYPE_UINT8 : Z;
  TRITONSERVER_TYPE_UINT16 : Z;
  TRITONSERVER_TYPE_UINT32 : Z;
  TRITONSERVER_TYPE_UINT64 : Z;
  TRITONSERVER_TYPE_INT8 : Z;
  TRITONSERVER_TYPE_INT16 : Z;
  TRITONSERVER_TYPE_INT32 : Z;
  TRITONSERVER_TYPE_INT64 : Z;
  TRITONSERVER_TYPE_FP16 : Z;
  TRITONSERVER_TYPE_FP32 : Z;
  TRITONSERVER_TYPE_FP64 : Z;
  TRITONSERVER_TYPE_BYTES : Z;
  TRITONSERVER_TYPE_BF16 : Z;
  (* TRITONSERVER_LogLevel, TRITONSERVER_Error_Code *)
  TRITONSERVER_LOG_ERROR : Z;
  TRITONSERVER_LOG_VERBOSE : Z;
  TRITONSERVER_ERROR_INTERNAL : Z;
  (* pure helpers of the native API *)
  TRITONSERVER_MemoryTypeString : Z → string;
  TRITONSERVER_ErrorCodeString_of : Z → string;
  (* cudaError_t, cudaHostAlloc flags, cudaGetErrorString *)
  cudaSuccess : Z;
  cudaErrorNoDevice : Z;
  cudaErrorInsufficientDriver : Z;
  cudaHostAllocPortable : Z;
  cudaGetErrorString : Z → string;
  (* how [operator<<] prints a [void*] *)
  pointer_to_string : Z → string;
  (* the [case] labels of a [switch] are distinct *)
  memory_type_labels_distinct :
    NoDup [TRITONSERVER_MEMORY_CPU; TRITONSERVER_MEMORY_CPU_PINNED;
           TRITONSERVER_MEMORY_GPU]
}.

(** ** common.h: the wrapper's enums *)

(* enum ModelControlMode *)
Definition MODEL_CONTROL_NONE : Z := 0.
Definition MODEL_CONTROL_POLL : Z := 1.
Definition MODEL_CONTROL_EXPLICIT : Z := 2.

(* enum MemoryType *)
Definition CPU : Z := 0.
Definition CPU_PINNED : Z := 1.
Definition GPU : Z := 2.

(* enum LogFormat *)
Definition LOG_DEFAULT : Z := 0.
Definition LOG_ISO8601 : Z := 1.

(** ** common.h: class Error *)

Record Error := mkError { msg_ : string }.

Definition Message (e : Error) : string := msg_ e.

(* bool IsOk() const { return msg_.empty(); } *)
Definition IsOk (e : Error) : bool :=
  match msg_ e with
  | EmptyString => true
  | String _ _ => false
  end.

(* const Error Error::Success(""); *)
Definition Error_Success : Error := mkError "".

(** ** common.cc: enum translators

    Each takes the content of the output cell before the call and returns
    the [Error] together with the content of the cell after the call. *)

Section Translators.
Context `{NativeHeaders}.

Definition ToTritonModelControlMode (model_control_mode : Z) (mode : Z)
  : Error * Z :=
  if mode =? MODEL_CONTROL_NONE then
    (Error_Success, TRITONSERVER_MODEL_CONTROL_NONE)
  else if mode =? MODEL_CONTROL_POLL then
    (Error_Success, TRITONSERVER_MODEL_CONTROL_POLL)
  else if mode =? MODEL_CONTROL_EXPLICIT then
    (Error_Success, TRITONSERVER_MODEL_CONTROL_EXPLICIT)
  else
    (mkError "unsupported model control mode.", model_control_mode).

Definition ToTritonLogFormat (log_format : Z) (format : Z) : Error * Z :=
  if format =? LOG_DEFAULT then
    (Error_Success, TRITONSERVER_LOG_DEFAULT)
  else if format =? LOG_ISO8601 then
    (Error_Success, TRITONSERVER_LOG_ISO8601)
  else
    (mkError "unsupported log format.", log_format).

Definition ToTritonDataType (dtype : Z) (data_type : string) : Error * Z :=
  let dtype' :=
    if String.eqb data_type "BOOL" || String.eqb data_type "TYPE_BOOL" then
      TRITONSERVER_TYPE_BOOL
    else if String.eqb data_type "UINT8" || String.eqb data_type "TYPE_UINT8" then
      TRITONSERVER_TYPE_UINT8
    else if String.eqb data_type "UINT16" || String.eqb data_type "TYPE_UINT16" then
      TRITONSERVER_TYPE_UINT16
    else if String.eqb data_type "UINT32" || String.eqb data_type "TYPE_UINT32" then
      TRITONSERVER_TYPE_UINT32
    else if String.eqb data_type "UINT64" || String.eqb data_type "TYPE_UINT64" then
      TRITONSERVER_TYPE_UINT64
    else if String.eqb data_type "INT8" || String.eqb data_type "TYPE_INT8" then
      TRITONSERVER_TYPE_INT8
    else if String.eqb data_type "INT16" || String.eqb data_type "TYPE_INT16" then
      TRITONSERVER_TYPE_INT16
    else if String.eqb data_type "INT32" || String.eqb data_type "TYPE_INT32" then
      TRITONSERVER_TYPE_INT32
    else if String.eqb data_type "INT64" || String.eqb data_type "TYPE_INT64" then
      TRITONSERVER_TYPE_INT64
    else if String.eqb data_type "FP16" || String.eqb data_type "TYPE_FP16" then
      TRITONSERVER_TYPE_FP16
    else if String.eqb data_type "FP32" || String.eqb data_type "TYPE_FP32" then
      TRITONSERVER_TYPE_FP32
    else if String.eqb data_type "FP64" || String.eqb data_type "TYPE_FP64" then
      TRITONSERVER_TYPE_FP64
    else if String.eqb data_type "BYTES" || String.eqb data_type "TYPE_STRING" then
      TRITONSERVER_TYPE_BYTES
    else if String.eqb data_type "BF16" || String.eqb data_type "TYPE_BF16" then
      TRITONSERVER_TYPE_BF16
    else
      TRITONSERVER_TYPE_INVALID in
  (Error_Success, dtype').

Definition ToTritonMemoryType (memory_type : Z) (mem_type : Z) : Error * Z :=
  if mem_type =? CPU then
    (Error_Success, TRITONSERVER_MEMORY_CPU)
  else if mem_type =? CPU_PINNED then
    (Error_Success, TRITONSERVER_MEMORY_CPU_PINNED)
  else if mem_type =? GPU then
    (Error_Success, TRITONSERVER_MEMORY_GPU)
  else
    (mkError "unsupported memory type.", memory_type).

Definition ToMemoryType (memory_type : Z) (mem_type : Z) : Error * Z :=
  if mem_type =? TRITONSERVER_MEMORY_CPU then
    (Error_Success, CPU)
  else if mem_type =? TRITONSERVER_MEMORY_CPU_PINNED then
    (Error_Success, CPU_PINNED)
  else if mem_type =? TRITONSERVER_MEMORY_GPU then
    (Error_Success, GPU)
  else
    (mkError "unsupported memory type.", memory_type).

(* std::string MemoryTypeString(MemoryType) *)
Definition MemoryTypeString (memory_type : Z) : string :=
  if memory_type =? CPU then "CPU"
  else if memory_type =? CPU_PINNED then "CPU_PINNED"
  else if memory_type =? GPU then "GPU"
  else "<invalid>".

(** The two spellings that the [if] chain of [ToTritonDataType] accepts for
    each data type, with the native type they select. *)
Definition data_type_spellings : list (string * string * Z) :=
  [ ("BOOL", "TYPE_BOOL", TRITONSERVER_TYPE_BOOL);
    ("UINT8", "TYPE_UINT8", TRITONSERVER_TYPE_UINT8);
    ("UINT16", "TYPE_UINT16", TRITONSERVER_TYPE_UINT16);
    ("UINT32", "TYPE_UINT32", TRITONSERVER_TYPE_UINT32);
    ("UINT64", "TYPE_UINT64", TRITONSERVER_TYPE_UINT64);
    ("INT8", "TYPE_INT8", TRITONSERVER_TYPE_INT8);
    ("INT16", "TYPE_INT16", TRITONSERVER_TYPE_INT16);
    ("INT32", "TYPE_INT32", TRITONSERVER_TYPE_INT32);
    ("INT64", "TYPE_INT64", TRITONSERVER_TYPE_INT64);
    ("FP16", "TYPE_FP16", TRITONSERVER_TYPE_FP16);
    ("FP32", "TYPE_FP32", TRITONSERVER_TYPE_FP32);
    ("FP64", "TYPE_FP64", TRITONSERVER_TYPE_FP64);
    ("BYTES", "TYPE_STRING", TRITONSERVER_TYPE_BYTES);
    ("BF16", "TYPE_BF16", TRITONSERVER_TYPE_BF16) ].

(** Every string that the parser recognizes. *)
Definition data_type_tokens : list string :=
  flat_map (λ e, [e.1.1; e.1.2]) data_type_spellings.

End Translators.

(** ** The world outside the wrapper

    A [TRITONSERVER_Error*] is either [nullptr] ([None]) or an error object
    made by [TRITONSERVER_ErrorNew] from a code and a message. *)

Record TRITONSERVER_Error := TRITONSERVER_ErrorNew {
  TRITONSERVER_ErrorCode : Z;
  TRITONSERVER_ErrorMessage : string
}.

Definition nullptr : Z := 0.

(** Calls that leave the wrapper, in the order they are made.  A call that
    returns something records what it returned. *)
Inductive Event :=
| ev_malloc (size ret : Z)
| ev_free (p : Z)
| ev_cudaSetDevice (device ret : Z)
| ev_cudaHostAlloc (size flags ret p : Z)
| ev_cudaMalloc (size ret p : Z)
| ev_cudaFreeHost (p ret : Z)
| ev_cudaFree (p ret : Z)
| ev_new_string (content : string) (p : Z)
| ev_delete_string (p : Z)
| ev_LogMessage (level : Z) (msg : string)
| ev_ErrorDelete (e : TRITONSERVER_Error)
| ev_cerr (text : string)
| ev_set_value (promise : Z) (state : nat) (value : Z)
| ev_delete_promise (promise : Z).

(** The shared state behind a [std::promise] / [std::future] pair. *)
Inductive shared_state :=
| Pending
| Ready (value : Z)
| Broken.

Record World := mkWorld {
  (* [std::string] objects made with [new] and not yet deleted *)
  strings : gmap Z string;
  (* live [std::promise] objects: address to shared state *)
  promises : gmap Z nat;
  shared_states : gmap nat shared_state;
  (* calls made so far, oldest first *)
  trace : list Event
}.

Definition record (e : Event) (w : World) : World :=
  mkWorld (strings w) (promises w) (shared_states w) (trace w ++ [e]).

Definition set_strings (h : gmap Z string) (w : World) : World :=
  mkWorld h (promises w) (shared_states w) (trace w).

Definition set_promises (ps : gmap Z nat) (w : World) : World :=
  mkWorld (strings w) ps (shared_states w) (trace w).

Definition set_shared_states (ss : gmap nat shared_state) (w : World) : World :=
  mkWorld (strings w) (promises w) ss (trace w).

(** What the C library, the CUDA runtime and the native server answer.  Each
    answer may depend on everything that happened before.  [operator new]
    either returns the address of a fresh object or throws; the model covers
    the executions in which it returns. *)
Record Runtime := {
  malloc_returns : World → Z → Z;
  cudaSetDevice_returns : World → Z → Z;
  (* error code and the pointer stored through the first argument *)
  cudaHostAlloc_returns : World → Z → Z → Z * Z;
  cudaMalloc_returns : World → Z → Z * Z;
  cudaFreeHost_returns : World → Z → Z;
  cudaFree_returns : World → Z → Z;
  TRITONSERVER_LogMessage_returns : World → Z → string → option TRITONSERVER_Error;
  new_returns : World → Z;
  new_returns_fresh :
    ∀ w, new_returns w ≠ nullptr ∧ strings w !! new_returns w = None
}.

(** ** Computations: state, C++ exceptions, undefined behaviour *)

Inductive outcome (A : Type) :=
| Normal (a : A) (w : World)
| Throws (what : string) (w : World)
| Undefined.
Arguments Normal {A} a w.
Arguments Throws {A} what w.
Arguments Undefined {A}.

Definition M (A : Type) : Type := World → outcome A.

Definition ret {A} (a : A) : M A := λ w, Normal a w.

Definition bind {A B} (m : M A) (k : A → M B) : M B :=
  λ w, match m w with
       | Normal a w' => k a w'
       | Throws what w' => Throws what w'
       | Undefined => Undefined
       end.

Notation "x <- c1 ;; c2" := (bind c1 (λ x, c2))
  (at level 20, c1 at level 99, c2 at level 200, only parsing).
Notation "c1 ;; c2" := (bind c1 (λ _, c2))
  (at level 100, c2 at level 200, only parsing, right associativity).

Definition emit (e : Event) : M unit := λ w, Normal tt (record e w).

(* std::to_string(size_t) *)
Definition to_string (n : Z) : string := pretty n.

(* what std::endl writes *)
Definition endl : string := String (Ascii.ascii_of_nat 10) EmptyString.

(* an int64_t passed where the callee takes an int: the value is reduced
   modulo 2^32 into the range of a 32-bit int *)
Definition int_of_int64_t (z : Z) : Z := (z + 2 ^ 31) mod 2 ^ 32 - 2 ^ 31.

Section Externals.
Context `{NativeHeaders} (rt : Runtime).

Definition malloc (size : Z) : M Z := λ w,
  let p := malloc_returns rt w size in
  Normal p (record (ev_malloc size p) w).

Definition free (p : Z) : M unit := emit (ev_free p).

Definition cudaSetDevice (device : Z) : M Z := λ w,
  let err := cudaSetDevice_returns rt w device in
  Normal err (record (ev_cudaSetDevice device err) w).

Definition cudaHostAlloc (size flags : Z) : M (Z * Z) := λ w,
  let r := cudaHostAlloc_returns rt w size flags in
  Normal r (record (ev_cudaHostAlloc size flags r.1 r.2) w).

Definition cudaMalloc (size : Z) : M (Z * Z) := λ w,
  let r := cudaMalloc_returns rt w size in
  Normal r (record (ev_cudaMalloc size r.1 r.2) w).

Definition cudaFreeHost (p : Z) : M Z := λ w,
  let err := cudaFreeHost_returns rt w p in
  Normal err (record (ev_cudaFreeHost p err) w).

Definition cudaFree (p : Z) : M Z := λ w,
  let err := cudaFree_returns rt w p in
  Normal err (record (ev_cudaFree p err) w).

(* new std::string(content) *)
Definition new_string (content : string) : M Z := λ w,
  let p := new_returns rt w in
  Normal p (record (ev_new_string content p)
              (set_strings (<[p := content]> (strings w)) w)).

(* *p, for p a std::string*: reading a dead object is undefined *)
Definition read_string (p : Z) : M string := λ w,
  match strings w !! p with
  | Some s => Normal s w
  | None => Undefined
  end.

(* delete p, for p a std::string*: deleting a dead object is undefined *)
Definition delete_string (p : Z) : M unit := λ w,
  if p =? nullptr then Normal tt w
  else match strings w !! p with
       | Some _ =>
           Normal tt (record (ev_delete_string p)
                        (set_strings (delete p (strings w)) w))
       | None => Undefined
       end.

(* std::cerr << text *)
Definition cerr (text : string) : M unit := emit (ev_cerr text).

(* the file and line arguments are left out *)
Definition TRITONSERVER_LogMessage (level : Z) (msg : string)
  : M (option TRITONSERVER_Error) := λ w,
  Normal (TRITONSERVER_LogMessage_returns rt w level msg)
         (record (ev_LogMessage level msg) w).

Definition TRITONSERVER_ErrorDelete (e : TRITONSERVER_Error) : M unit :=
  emit (ev_ErrorDelete e).

Definition TRITONSERVER_ErrorCodeString (e : TRITONSERVER_Error) : string :=
  TRITONSERVER_ErrorCodeString_of (TRITONSERVER_ErrorCode e).

(* p->set_value(v), for p a std::promise<TRITONSERVER_InferenceResponse*>* *)
Definition promise_set_value (p : Z) (v : Z) : M unit := λ w,
  match promises w !! p with
  | None => Undefined
  | Some s =>
      match shared_states w !! s with
      | Some Pending =>
          Normal tt (record (ev_set_value p s v)
                       (set_shared_states (<[s := Ready v]> (shared_states w)) w))
      | Some _ => Throws "promise_already_satisfied" w
      | None => Throws "no_state" w
      end
  end.

(* delete p, for p a std::promise*: a promise destroyed before it is
   satisfied leaves a broken-promise error in its shared state *)
Definition delete_promise (p : Z) : M unit := λ w,
  if p =? nullptr then Normal tt w
  else match promises w !! p with
       | None => Undefined
       | Some s =>
           let ss := match shared_states w !! s with
                     | Some Pending => <[s := Broken]> (shared_states w)
                     | _ => shared_states w
                     end in
           Normal tt (record (ev_delete_promise p)
                        (set_promises (delete p (promises w))
                           (set_shared_states ss w)))
       end.

(** *** common.h: the logging macros *)

Definition IGNORE_ERROR (X : M (option TRITONSERVER_Error)) : M unit :=
  ie_err__ <- X ;;
  match ie_err__ with
  | Some e => TRITONSERVER_ErrorDelete e
  | None => ret tt
  end.

Definition LOG_IF_ERROR (X : M (option TRITONSERVER_Error)) (MSG : string)
  : M unit :=
  lie_err__ <- X ;;
  match lie_err__ with
  | Some e =>
      IGNORE_ERROR
        (TRITONSERVER_LogMessage TRITONSERVER_LOG_ERROR
           (MSG +:+ ": " +:+ TRITONSERVER_ErrorCodeString e +:+ " - " +:+
            TRITONSERVER_ErrorMessage e)) ;;
      TRITONSERVER_ErrorDelete e
  | None => ret tt
  end.

Definition LOG_MESSAGE (LEVEL : Z) (MSG : string) : M unit :=
  LOG_IF_ERROR (TRITONSERVER_LogMessage LEVEL MSG) "failed to log message: ".

End Externals.

(** ** common.cc: the response allocator callbacks *)

(** The four cells that [ResponseAlloc] writes through its out-parameters
    [buffer], [buffer_userp], [actual_memory_type] and
    [actual_memory_type_id]. *)
Record AllocOut := mkAllocOut {
  buffer : Z;
  buffer_userp : Z;
  actual_memory_type : Z;
  actual_memory_type_id : Z
}.

Definition set_buffer (p : Z) (o : AllocOut) : AllocOut :=
  mkAllocOut p (buffer_userp o) (actual_memory_type o) (actual_memory_type_id o).

Definition set_buffer_userp (p : Z) (o : AllocOut) : AllocOut :=
  mkAllocOut (buffer o) p (actual_memory_type o) (actual_memory_type_id o).

Definition set_actual_memory_type (t : Z) (o : AllocOut) : AllocOut :=
  mkAllocOut (buffer o) (buffer_userp o) t (actual_memory_type_id o).

Definition set_actual_memory_type_id (i : Z) (o : AllocOut) : AllocOut :=
  mkAllocOut (buffer o) (buffer_userp o) (actual_memory_type o) i.

Section Callbacks.
Context `{NativeHeaders}.
(* whether the file is compiled with TRITON_ENABLE_GPU defined *)
Variable TRITON_ENABLE_GPU : bool.
Variable rt : Runtime.

(* (err != cudaSuccess) && (err != cudaErrorNoDevice) &&
   (err != cudaErrorInsufficientDriver) *)
Definition device_error_is_fatal (err : Z) : bool :=
  negb (err =? cudaSuccess) && negb (err =? cudaErrorNoDevice) &&
  negb (err =? cudaErrorInsufficientDriver).

(* lines 113-124: what follows the switch *)
Definition publish_allocation (tensor_name : string) (byte_size : Z)
    (allocated_ptr : Z) (out : AllocOut)
  : M (option TRITONSERVER_Error * AllocOut) :=
  if negb (allocated_ptr =? nullptr) then
    let out := set_buffer allocated_ptr out in
    tag <- new_string rt tensor_name ;;
    let out := set_buffer_userp tag out in
    LOG_MESSAGE rt TRITONSERVER_LOG_VERBOSE
      ("allocated " +:+ to_string byte_size +:+ " bytes in " +:+
       TRITONSERVER_MemoryTypeString (actual_memory_type out) +:+
       " for result tensor " +:+ tensor_name) ;;
    ret (None, out)
  else
    ret (None, out).

Definition ResponseAlloc (allocator : Z) (tensor_name : string)
    (byte_size : Z) (preferred_memory_type : Z)
    (preferred_memory_type_id : Z) (userp : Z) (out : AllocOut)
  : M (option TRITONSERVER_Error * AllocOut) :=
  let out := set_actual_memory_type preferred_memory_type out in
  let out := set_actual_memory_type_id preferred_memory_type_id out in
  if byte_size =? 0 then
    let out := set_buffer nullptr out in
    let out := set_buffer_userp nullptr out in
    LOG_MESSAGE rt TRITONSERVER_LOG_VERBOSE
      ("allocated " +:+ to_string byte_size +:+
       " bytes for result tensor " +:+ tensor_name) ;;
    ret (None, out)
  else if TRITON_ENABLE_GPU &&
          (actual_memory_type out =? TRITONSERVER_MEMORY_CPU_PINNED) then
    (* cudaSetDevice(int): the int64_t id is converted *)
    err <- cudaSetDevice rt (int_of_int64_t (actual_memory_type_id out)) ;;
    if device_error_is_fatal err then
      ret (Some (TRITONSERVER_ErrorNew TRITONSERVER_ERROR_INTERNAL
                   ("unable to recover current CUDA device: " +:+
                    cudaGetErrorString err)), out)
    else
      r <- cudaHostAlloc rt byte_size cudaHostAllocPortable ;;
      if negb (r.1 =? cudaSuccess) then
        ret (Some (TRITONSERVER_ErrorNew TRITONSERVER_ERROR_INTERNAL
                     ("cudaHostAlloc failed: " +:+ cudaGetErrorString r.1)),
             out)
      else publish_allocation tensor_name byte_size r.2 out
  else if TRITON_ENABLE_GPU &&
          (actual_memory_type out =? TRITONSERVER_MEMORY_GPU) then
    (* cudaSetDevice(int): the int64_t id is converted *)
    err <- cudaSetDevice rt (int_of_int64_t (actual_memory_type_id out)) ;;
    if device_error_is_fatal err then
      ret (Some (TRITONSERVER_ErrorNew TRITONSERVER_ERROR_INTERNAL
                   ("unable to recover current CUDA device: " +:+
                    cudaGetErrorString err)), out)
    else
      r <- cudaMalloc rt byte_size ;;
      if negb (r.1 =? cudaSuccess) then
        ret (Some (TRITONSERVER_ErrorNew TRITONSERVER_ERROR_INTERNAL
                     ("cudaMalloc failed: " +:+ cudaGetErrorString r.1)),
             out)
      else publish_allocation tensor_name byte_size r.2 out
  else
    (* case TRITONSERVER_MEMORY_CPU: default: *)
    let out := set_actual_memory_type TRITONSERVER_MEMORY_CPU out in
    allocated_ptr <- malloc rt byte_size ;;
    publish_allocation tensor_name byte_size allocated_ptr out.

(* lines 164-167 and 175-178 *)
Definition report_cuda_free_error (buffer : Z) (err : Z) : M unit :=
  if negb (err =? cudaSuccess) then
    cerr ("error: failed to cudaFree " +:+ pointer_to_string buffer +:+
          ": " +:+ cudaGetErrorString err +:+ endl)
  else ret tt.

(* lines 154-186: the switch on the memory type *)
Definition free_by_memory_type (buffer : Z) (memory_type : Z)
    (memory_type_id : Z) : M unit :=
  if memory_type =? TRITONSERVER_MEMORY_CPU then
    free buffer
  else if TRITON_ENABLE_GPU &&
          (memory_type =? TRITONSERVER_MEMORY_CPU_PINNED) then
    (* cudaSetDevice(int): the int64_t id is converted *)
    err <- cudaSetDevice rt (int_of_int64_t memory_type_id) ;;
    err <- (if err =? cudaSuccess then cudaFreeHost rt buffer
            else ret err) ;;
    report_cuda_free_error buffer err
  else if TRITON_ENABLE_GPU &&
          (memory_type =? TRITONSERVER_MEMORY_GPU) then
    (* cudaSetDevice(int): the int64_t id is converted *)
    err <- cudaSetDevice rt (int_of_int64_t memory_type_id) ;;
    err <- (if err =? cudaSuccess then cudaFree rt buffer
            else ret err) ;;
    report_cuda_free_error buffer err
  else
    cerr ("error: unexpected buffer allocated in CUDA managed memory"
          +:+ endl).

Definition ResponseRelease (allocator : Z) (buffer : Z) (buffer_userp : Z)
    (byte_size : Z) (memory_type : Z) (memory_type_id : Z)
  : M (option TRITONSERVER_Error) :=
  name <- (if negb (buffer_userp =? nullptr) then ret buffer_userp
           else new_string rt "<unknown>") ;;
  let buffer_str := pointer_to_string buffer in
  name_str <- read_string name ;;
  LOG_MESSAGE rt TRITONSERVER_LOG_VERBOSE
    ("Releasing buffer " +:+ buffer_str +:+ " of size " +:+
     to_string byte_size +:+ " in " +:+
     TRITONSERVER_MemoryTypeString memory_type +:+ " for result '" +:+
     name_str) ;;
  free_by_memory_type buffer memory_type memory_type_id ;;
  delete_string name ;;
  ret None.

(** ** common.cc: the completion callback *)

Definition InferResponseComplete (response : Z) (flags : Z) (userp : Z)
  : M unit :=
  if negb (response =? nullptr) then
    let p := userp in
    promise_set_value p response ;;
    delete_promise p
  else
    ret tt.

(** The engine firing the completion callback several times in a row, as
    [(response, flags, userp)] triples. *)
Fixpoint fire_completions (calls : list (Z * Z * Z)) : M unit :=
  match calls with
  | [] => ret tt
  | c :: calls' =>
      InferResponseComplete c.1.1 c.1.2 c.2 ;;
      fire_completions calls'
  end.

End Callbacks.

(** ** Reading traces *)

(** Calls to an underlying buffer allocator. *)
Definition is_allocator_call (e : Event) : bool :=
  match e with
  | ev_malloc _ _ | ev_cudaHostAlloc _ _ _ _ | ev_cudaMalloc _ _ _ => true
  | _ => false
  end.

(** Calls into the CUDA runtime. *)
Definition is_cuda_call (e : Event) : bool :=
  match e with
  | ev_cudaSetDevice _ _ | ev_cudaHostAlloc _ _ _ _ | ev_cudaMalloc _ _ _
  | ev_cudaFreeHost _ _ | ev_cudaFree _ _ => true
  | _ => false
  end.

(** The pointer that an allocator call handed back. *)
Definition allocated_by (e : Event) : option Z :=
  match e with
  | ev_malloc _ p | ev_cudaHostAlloc _ _ _ p | ev_cudaMalloc _ _ p => Some p
  | _ => None
  end.

(** A CUDA allocator call that reported a failure. *)
Definition cuda_allocation_failed `{NativeHeaders} (e : Event) : bool :=
  match e with
  | ev_cudaHostAlloc _ _ err _ | ev_cudaMalloc _ err _ =>
      negb (err =? cudaSuccess)
  | _ => false
  end.

(** Calls to the native log, and the disposal of the errors it returns. *)
Definition is_log_call (e : Event) : bool :=
  match e with
  | ev_LogMessage _ _ | ev_ErrorDelete _ => true
  | _ => false
  end.

Definition is_string_delete (e : Event) : bool :=
  match e with
  | ev_delete_string _ => true
  | _ => false
  end.

(** Fulfilments of the shared state [s]. *)
Definition fulfils (s : nat) (e : Event) : bool :=
  match e with
  | ev_set_value _ s' _ => bool_decide (s' = s)
  | _ => false
  end.

Definition fulfilments (s : nat) (evs : list Event) : nat :=
  length (filter (λ e, fulfils s e = true) evs).

(** Whether the [switch] of [ResponseAlloc] and [ResponseRelease] has a
    [case] of its own for a device memory type. *)
Definition has_device_case `{NativeHeaders} (TRITON_ENABLE_GPU : bool)
    (memory_type : Z) : bool :=
  TRITON_ENABLE_GPU &&
  ((memory_type =? TRITONSERVER_MEMORY_CPU_PINNED) ||
   (memory_type =? TRITONSERVER_MEMORY_GPU)).

(** ** One concrete platform

    The values that [tritonserver.h] and [cuda_runtime_api.h] give to the
    names of [NativeHeaders], and runtimes that always answer the same. *)

(* operator<< on a void*, as libstdc++ on a 64-bit platform prints it:
   hexadecimal digits after 0x, and 0 for the null pointer *)
Definition hex_digit (d : Z) : Ascii.ascii :=
  default (Ascii.ascii_of_nat 48)
    (String.get (Z.to_nat d) "0123456789abcdef").

Fixpoint hex_digits (fuel : nat) (n : Z) (acc : string) : string :=
  match fuel with
  | O => acc
  | S fuel' =>
      if n =? 0 then acc
      else hex_digits fuel' (n / 16) (String (hex_digit (n mod 16)) acc)
  end.

Definition hex_of_pointer (p : Z) : string :=
  let a := p mod 2 ^ 64 in
  if a =? 0 then "0" else "0x" +:+ hex_digits 16 a "".

Definition tritonserver_h : NativeHeaders := {|
  TRITONSERVER_MEMORY_CPU := 0;
  TRITONSERVER_MEMORY_CPU_PINNED := 1;
  TRITONSERVER_MEMORY_GPU := 2;
  TRITONSERVER_MODEL_CONTROL_NONE := 0;
  TRITONSERVER_MODEL_CONTROL_POLL := 1;
  TRITONSERVER_MODEL_CONTROL_EXPLICIT := 2;
  TRITONSERVER_LOG_DEFAULT := 0;
  TRITONSERVER_LOG_ISO8601 := 1;
  TRITONSERVER_TYPE_INVALID := 0;
  TRITONSERVER_TYPE_BOOL := 1;
  TRITONSERVER_TYPE_UINT8 := 2;
  TRITONSERVER_TYPE_UINT16 := 3;
  TRITONSERVER_TYPE_UINT32 := 4;
  TRITONSERVER_TYPE_UINT64 := 5;
  TRITONSERVER_TYPE_INT8 := 6;
  TRITONSERVER_TYPE_INT16 := 7;
  TRITONSERVER_TYPE_INT32 := 8;
  TRITONSERVER_TYPE_INT64 := 9;
  TRITONSERVER_TYPE_FP16 := 10;
  TRITONSERVER_TYPE_FP32 := 11;
  TRITONSERVER_TYPE_FP64 := 12;
  TRITONSERVER_TYPE_BYTES := 13;
  TRITONSERVER_TYPE_BF16 := 14;
  TRITONSERVER_LOG_ERROR := 2;
  TRITONSERVER_LOG_VERBOSE := 3;
  TRITONSERVER_ERROR_INTERNAL := 1;
  TRITONSERVER_MemoryTypeString := λ t,
    if t =? 0 then "CPU" else if t =? 1 then "CPU_PINNED"
    else if t =? 2 then "GPU" else "<invalid>";
  TRITONSERVER_ErrorCodeString_of := λ c,
    if c =? 0 then "Unknown" else if c =? 1 then "Internal"
    else if c =? 2 then "Not found" else if c =? 3 then "Invalid argument"
    else if c =? 4 then "Unavailable" else if c =? 5 then "Unsupported"
    else if c =? 6 then "Already exists" else "<invalid code>";
  cudaSuccess := 0;
  cudaErrorNoDevice := 100;
  cudaErrorInsufficientDriver := 35;
  cudaHostAllocPortable := 1;
  cudaGetErrorString := λ e,
    if e =? 0 then "no error" else if e =? 2 then "out of memory"
    else if e =? 35 then
      "CUDA driver version is insufficient for CUDA runtime version"
    else if e =? 100 then "no CUDA-capable device is detected"
    else if e =? 101 then "invalid device ordinal"
    else "unrecognized error code";
  pointer_to_string := hex_of_pointer;
  memory_type_labels_distinct := bool_decide_unpack (NoDup [0; 1; 2]) I
|}.

(** An address that no live [std::string] occupies. *)
Definition fresh_address (w : World) : Z :=
  fresh ({[nullptr]} ∪ dom (strings w)).

Definition fresh_address_spec (w : World) :
  fresh_address w ≠ nullptr ∧ strings w !! fresh_address w = None.
Proof.
  pose proof (is_fresh ({[nullptr]} ∪ dom (strings w))) as Hfresh.
  fold (fresh_address w) in Hfresh.
  split; [set_solver|]. apply not_elem_of_dom. set_solver.
Qed.

(** A runtime in which [malloc] returns [malloc_p], [cudaSetDevice] returns
    [set_device_err], both CUDA allocators return [cuda_alloc], both CUDA
    deallocators return [cuda_free_err], and logging answers [log_err]. *)
Definition constant_runtime (malloc_p set_device_err : Z) (cuda_alloc : Z * Z)
    (cuda_free_err : Z) (log_err : option TRITONSERVER_Error) : Runtime := {|
  malloc_returns := λ _ _, malloc_p;
  cudaSetDevice_returns := λ _ _, set_device_err;
  cudaHostAlloc_returns := λ _ _ _, cuda_alloc;
  cudaMalloc_returns := λ _ _, cuda_alloc;
  cudaFreeHost_returns := λ _ _, cuda_free_err;
  cudaFree_returns := λ _ _, cuda_free_err;
  TRITONSERVER_LogMessage_returns := λ _ _ _, log_err;
  new_returns := fresh_address;
  new_returns_fresh := fresh_address_spec
|}.

(* everything succeeds *)
Definition runtime_healthy : Runtime :=
  constant_runtime 4096 0 (0, 8192) 0 None.

(* the host is out of memory: malloc returns NULL *)
Definition runtime_out_of_memory : Runtime :=
  constant_runtime 0 0 (0, 8192) 0 None.

(* cudaSetDevice answers cudaErrorNoDevice *)
Definition runtime_no_device : Runtime :=
  constant_runtime 4096 100 (0, 8192) 0 None.

(* cudaSetDevice answers cudaErrorInvalidDevice *)
Definition runtime_invalid_device : Runtime :=
  constant_runtime 4096 101 (0, 8192) 0 None.

(* the CUDA deallocators answer cudaErrorInvalidValue *)
Definition runtime_free_fails : Runtime :=
  constant_runtime 4096 0 (0, 8192) 1 None.

Definition empty_world : World := mkWorld ∅ ∅ ∅ [].

Definition no_output : AllocOut := mkAllocOut nullptr nullptr 0 0.

(** ** Specifications of computations *)

(** The world after the calls [evs] that touch nothing but the trace. *)
Definition extend (evs : list Event) (w : World) : World :=
  mkWorld (strings w) (promises w) (shared_states w) (trace w ++ evs).

(** [runs m w Q]: from [w] the computation [m] returns normally, with a
    result [a], a final world [w'] and the calls [evs] it added to the
    trace, and these satisfy [Q a w' evs]. *)
Definition runs {A} (m : M A) (w : World)
    (Q : A → World → list Event → Prop) : Prop :=
  ∃ a w' evs, m w = Normal a w' ∧ trace w' = trace w ++ evs ∧ Q a w' evs.

(** The world an outcome ends in, when it has one. *)
Definition final_world {A} (o : outcome A) : option World :=
  match o with
  | Normal _ w | Throws _ w => Some w
  | Undefined => None
  end.

(** ** common.h: the error macros

    A macro that may leave the enclosing function is a computation whose
    result says whether it did: [Some e] is [return e], [None] falls
    through to the next statement.  The argument of a macro on [Error]
    values is the value of its expression [X]. *)

(* throw ServerWrapperException(what) *)
Definition throw {A} (what : string) : M A := λ w, Throws what w.

Section Macros.
Context `{NativeHeaders}.

Definition RETURN_IF_ERR (err : Error) : option Error :=
  if negb (IsOk err) then Some (mkError (Message err)) else None.



(* TRITONSERVER_ErrorCodeString(err__) + std::string("-") +
   TRITONSERVER_ErrorMessage(err__) + "\n" *)
Definition triton_error_text (err__ : TRITONSERVER_Error) : string :=
  TRITONSERVER_ErrorCodeString err__ +:+ "-" +:+
  TRITONSERVER_ErrorMessage err__ +:+ endl.

Definition RETURN_ERR_IF_TRITON_ERR (X : M (option TRITONSERVER_Error))
  : M (option Error) :=
  err__ <- X ;;
  match err__ with
  | Some e =>
      let err := mkError (triton_error_text e) in
      TRITONSERVER_ErrorDelete e ;;
      ret (Some err)
  | None => ret None
  end.

Definition THROW_IF_TRITON_ERR (X : M (option TRITONSERVER_Error)) : M unit :=
  err__ <- X ;;
  match err__ with
  | Some e =>
      let ex := triton_error_text e in
      TRITONSERVER_ErrorDelete e ;;
      throw ex
  | None => ret tt
  end.

Definition THROW_ERR_IF_TRITON_ERR (X : M (option TRITONSERVER_Error))
  : M unit :=
  err__ <- X ;;
  match err__ with
  | Some e =>
      let err := mkError (triton_error_text e) in
      TRITONSERVER_ErrorDelete e ;;
      throw (Message err)
  | None => ret tt
  end.

End Macros.

(** ** common.cc: the request-release callback *)

Section RequestCallback.
Context `{NativeHeaders}.
Variable rt : Runtime.
(* the native call that deletes an inference request; what it does to the
   world and what it returns is up to the native server *)
Variable TRITONSERVER_InferenceRequestDelete : Z → M (option TRITONSERVER_Error).

Definition InferRequestComplete (request : Z) (flags : Z) (userp : Z)
  : M unit :=
  if negb (request =? nullptr) then
    LOG_IF_ERROR rt (TRITONSERVER_InferenceRequestDelete request)
      "Failed to delete inference request."
  else
    ret tt.

End RequestCallback.

(** ** common.h: class InferRequestedOutput *)

Record InferRequestedOutput := mkInferRequestedOutput {
  name_ : string;
  buffer_ : Z;
  byte_size_ : Z;
  memory_type_ : Z;
  memory_type_id_ : Z
}.

Section RequestedOutput.
Context `{NativeHeaders}.
(* declared in common.h and defined outside these two files; it takes the
   content of the native cell and the wrapper value, like the translators
   above *)
Variable WrapperToTritonMemoryType : Z → Z → Error * Z.

(* static std::unique_ptr<InferRequestedOutput> Create(const std::string&) *)
Definition InferRequestedOutput_Create (name : string) : InferRequestedOutput :=
  mkInferRequestedOutput name nullptr 0 TRITONSERVER_MEMORY_CPU 0.

(* static Error Create(std::unique_ptr<InferRequestedOutput>&, ...):
   [infer_output] is what the unique_ptr holds before the call,
   [output_memory_type] what the uninitialised local holds; the result is
   the Error and what the unique_ptr holds after the call *)
Definition InferRequestedOutput_Create_preallocated
    (infer_output : option InferRequestedOutput) (name : string)
    (buffer : Z) (byte_size : Z) (memory_type : Z) (memory_type_id : Z)
    (output_memory_type : Z)
  : Error * option InferRequestedOutput :=
  let r := WrapperToTritonMemoryType output_memory_type memory_type in
  match RETURN_IF_ERR r.1 with
  | Some err => (err, infer_output)
  | None =>
      (Error_Success,
       Some (mkInferRequestedOutput name buffer byte_size r.2 memory_type_id))
  end.

End RequestedOutput.

(** ** More readings of traces *)

(** Calls that give a buffer back. *)
Definition is_deallocator_call (e : Event) : bool :=
  match e with
  | ev_free _ | ev_cudaFreeHost _ _ | ev_cudaFree _ _ => true
  | _ => false
  end.

Definition is_new_string (e : Event) : bool :=
  match e with
  | ev_new_string _ _ => true
  | _ => false
  end.

Definition is_LogMessage (e : Event) : bool :=
  match e with
  | ev_LogMessage _ _ => true
  | _ => false
  end.

(** The errors handed to [TRITONSERVER_ErrorDelete], oldest first. *)
Definition deleted_errors (evs : list Event) : list TRITONSERVER_Error :=
  omap (λ e, match e with ev_ErrorDelete err => Some err | _ => None end) evs.

(** The line that [ResponseRelease] writes for a memory type it has no
    [case] for, and the one for a failing CUDA call. *)
Definition unexpected_buffer_line : string :=
  "error: unexpected buffer allocated in CUDA managed memory" +:+ endl.

Definition cuda_free_failed_line `{NativeHeaders} (buffer err : Z) : string :=
  "error: failed to cudaFree " +:+ pointer_to_string buffer +:+ ": " +:+
  cudaGetErrorString err +:+ endl.

(** A runtime like [runtime_healthy] whose log always fails. *)
Definition runtime_log_fails : Runtime :=
  constant_runtime 4096 0 (0, 8192) 0
    (Some (TRITONSERVER_ErrorNew 4 "log is closed")).

(** The calls that the [switch] of [ResponseRelease] can make for a buffer
    of a given memory type: [free] for CPU memory; for a device type the
    build has a [case] for, [cudaSetDevice] and then either the CUDA
    deallocator of that type or, if the device could not be selected, the
    report of that; for anything else the report alone. *)
Definition release_switch_calls `{NativeHeaders} (TRITON_ENABLE_GPU : bool)
    (buffer memory_type memory_type_id : Z) (evs : list Event) : Prop :=
  (memory_type = TRITONSERVER_MEMORY_CPU ∧ evs = [ev_free buffer]) ∨
  (memory_type ≠ TRITONSERVER_MEMORY_CPU ∧
   has_device_case TRITON_ENABLE_GPU memory_type = false ∧
   evs = [ev_cerr unexpected_buffer_line]) ∨
  (memory_type ≠ TRITONSERVER_MEMORY_CPU ∧
   has_device_case TRITON_ENABLE_GPU memory_type = true ∧
   ∃ err,
     (err ≠ cudaSuccess ∧
      evs = [ev_cudaSetDevice (int_of_int64_t memory_type_id) err;
             ev_cerr (cuda_free_failed_line buffer err)]) ∨
     (err = cudaSuccess ∧
      ∃ err2,
        evs = ev_cudaSetDevice (int_of_int64_t memory_type_id) err
              :: (if memory_type =? TRITONSERVER_MEMORY_CPU_PINNED
                  then ev_cudaFreeHost buffer err2
                  else ev_cudaFree buffer err2)
              :: (if err2 =? cudaSuccess then []
                  else [ev_cerr (cuda_free_failed_line buffer err2)]))).

(** A promise address on which [set_value] can no longer succeed: no live
    promise is there, or its shared state is no longer pending. *)
Definition spent (w : World) (p : Z) : Prop :=
  ∀ s, promises w !! p = Some s → shared_states w !! s ≠ Some Pending.

(** The promise addresses that a list of firings hands a non-null response. *)
Definition answered (calls : list (Z * Z * Z)) : list Z :=
  (filter (λ c : Z * Z * Z, c.1.1 ≠ nullptr) calls).*2.

(** * Properties *)

(** ** The translators *)

Section TranslatorFacts.
Context `{NativeHeaders}.

Lemma native_memory_types_distinct :
  TRITONSERVER_MEMORY_CPU ≠ TRITONSERVER_MEMORY_CPU_PINNED ∧
  TRITONSERVER_MEMORY_CPU ≠ TRITONSERVER_MEMORY_GPU ∧
  TRITONSERVER_MEMORY_CPU_PINNED ≠ TRITONSERVER_MEMORY_GPU.
Proof.
  pose proof memory_type_labels_distinct as Hnd.
  apply NoDup_cons in Hnd as [Hcpu Hnd].
  apply NoDup_cons in Hnd as [Hpinned _].
  set_solver.
Qed.

(** C5. The two spellings of every data type parse to the same native type,
    the second spelling carrying the [TYPE_] prefix; a string that is none of
    the recognized tokens parses to [TRITONSERVER_TYPE_INVALID]; and
    [ToTritonDataType] reports success for every string. *)
Theorem ToTritonDataType_spellings (dtype : Z) (unknown : string) :
  unknown ∉ data_type_tokens →
  Forall (λ e, ToTritonDataType dtype e.1.1 = (Error_Success, e.2) ∧
               ToTritonDataType dtype e.1.2 = (Error_Success, e.2) ∧
               String.prefix "TYPE_" e.1.2 = true)
         data_type_spellings ∧
  ToTritonDataType dtype unknown = (Error_Success, TRITONSERVER_TYPE_INVALID) ∧
  ∀ s, IsOk (ToTritonDataType dtype s).1 = true.
Proof.
  intros Hunknown. split; [|split].
  - unfold data_type_spellings.
    repeat (apply Forall_cons; split; [by repeat split|]).
    apply Forall_nil_2.
  - unfold ToTritonDataType.
    repeat match goal with
      | |- context [String.eqb unknown ?tok] =>
          destruct (String.eqb_spec unknown tok) as [->|_];
          [exfalso; apply Hunknown; apply list_elem_of_In; cbn; tauto|]
      end.
    reflexivity.
  - intros s. reflexivity.
Qed.

(** C6. Mapping a supported wrapper memory type to the native one and back
    succeeds both ways and gives the value started from. *)
Theorem memory_type_round_trip (m : Z) (native_cell wrapper_cell : Z) :
  m ∈ [CPU; CPU_PINNED; GPU] →
  let there := ToTritonMemoryType native_cell m in
  let back := ToMemoryType wrapper_cell there.2 in
  IsOk there.1 = true ∧ IsOk back.1 = true ∧ back.2 = m.
Proof.
  intros Hm.
  destruct native_memory_types_distinct as (Hcp & Hcg & Hpg).
  unfold ToTritonMemoryType, ToMemoryType.
  set_unfold in Hm. destruct Hm as [->|[->|[->|[]]]]; cbn;
    repeat case_match; cbn; try done; lia.
Qed.

(** C7. On an input outside their enum, the four enum translators return an
    [Error] that is not ok and whose message is not empty, and they put no
    value (no sentinel) in the output cell. *)
Theorem unrecognized_enum_is_an_error
    (cell mode format mem_type native_mem_type : Z) :
  mode ∉ [MODEL_CONTROL_NONE; MODEL_CONTROL_POLL; MODEL_CONTROL_EXPLICIT] →
  format ∉ [LOG_DEFAULT; LOG_ISO8601] →
  mem_type ∉ [CPU; CPU_PINNED; GPU] →
  native_mem_type ∉ [TRITONSERVER_MEMORY_CPU; TRITONSERVER_MEMORY_CPU_PINNED;
                     TRITONSERVER_MEMORY_GPU] →
  Forall (λ r : Error * Z,
            IsOk r.1 = false ∧ Message r.1 ≠ "" ∧ r.2 = cell)
    [ ToTritonModelControlMode cell mode;
      ToTritonLogFormat cell format;
      ToTritonMemoryType cell mem_type;
      ToMemoryType cell native_mem_type ].
Proof.
  intros Hmode Hformat Hmem Hnative.
  unfold ToTritonModelControlMode, ToTritonLogFormat, ToTritonMemoryType,
    ToMemoryType.
  set_unfold in Hmode. set_unfold in Hformat. set_unfold in Hmem.
  set_unfold in Hnative.
  repeat (apply Forall_cons; split); try apply Forall_nil_2;
    repeat case_match; cbn; try done; exfalso;
    repeat match goal with
      | E : (_ =? _) = true |- _ => apply Z.eqb_eq in E
      end; tauto.
Qed.

(** C9. Whenever one of the four enum translators returns an error, the
    output cell holds what it held before the call. *)
Theorem error_leaves_output_unwritten
    (cell mode format mem_type native_mem_type : Z) :
  IsOk (ToTritonModelControlMode cell mode).1 = false →
  IsOk (ToTritonLogFormat cell format).1 = false →
  IsOk (ToTritonMemoryType cell mem_type).1 = false →
  IsOk (ToMemoryType cell native_mem_type).1 = false →
  (ToTritonModelControlMode cell mode).2 = cell ∧
  (ToTritonLogFormat cell format).2 = cell ∧
  (ToTritonMemoryType cell mem_type).2 = cell ∧
  (ToMemoryType cell native_mem_type).2 = cell.
Proof.
  unfold ToTritonModelControlMode, ToTritonLogFormat, ToTritonMemoryType,
    ToMemoryType.
  intros Hmode Hformat Hmem Hnative.
  repeat split; repeat case_match; cbn in *; congruence.
Qed.

End TranslatorFacts.

Lemma ToTritonDataType_spellings_witness :
  ("bool" ∉ data_type_tokens (H := tritonserver_h)) ∧
  ToTritonDataType (H := tritonserver_h) 5 "bool" = (Error_Success, 0).
Proof.
  assert (Hno : "bool" ∉ data_type_tokens (H := tritonserver_h)).
  { apply (bool_decide_unpack _). vm_compute. exact I. }
  split; [exact Hno|].
  exact (proj1 (proj2 (@ToTritonDataType_spellings tritonserver_h 5 "bool" Hno))).
Defined.

(** The prefixed token of the BYTES type is [TYPE_STRING]; [TYPE_BYTES] is
    not a recognized spelling, and matching is case-sensitive. *)
Example ToTritonDataType_unrecognized_tokens :
  ToTritonDataType (H := tritonserver_h) 0 "TYPE_STRING" = (Error_Success, 13) ∧
  ToTritonDataType (H := tritonserver_h) 13 "TYPE_BYTES" = (Error_Success, 0) ∧
  ToTritonDataType (H := tritonserver_h) 13 "Bytes" = (Error_Success, 0).
Proof. repeat split. Qed.

Lemma memory_type_round_trip_witness :
  (GPU ∈ [CPU; CPU_PINNED; GPU]) ∧
  (ToMemoryType (H := tritonserver_h) 9
     (ToTritonMemoryType (H := tritonserver_h) 8 GPU).2).2 = GPU.
Proof.
  assert (Hin : GPU ∈ [CPU; CPU_PINNED; GPU]).
  { apply (bool_decide_unpack _). vm_compute. exact I. }
  split; [exact Hin|].
  exact (proj2 (proj2 (@memory_type_round_trip tritonserver_h GPU 8 9 Hin))).
Defined.

Lemma unrecognized_enum_is_an_error_witness :
  Forall (λ r : Error * Z, IsOk r.1 = false ∧ Message r.1 ≠ "" ∧ r.2 = 42)
    [ ToTritonModelControlMode (H := tritonserver_h) 42 3;
      ToTritonLogFormat (H := tritonserver_h) 42 2;
      ToTritonMemoryType (H := tritonserver_h) 42 (-1);
      ToMemoryType (H := tritonserver_h) 42 7 ].
Proof.
  apply (@unrecognized_enum_is_an_error tritonserver_h 42 3 2 (-1) 7);
    apply (bool_decide_unpack _); vm_compute; exact I.
Defined.

Lemma error_leaves_output_unwritten_witness :
  (ToTritonModelControlMode (H := tritonserver_h) 42 3).2 = 42 ∧
  (ToTritonLogFormat (H := tritonserver_h) 42 2).2 = 42 ∧
  (ToTritonMemoryType (H := tritonserver_h) 42 (-1)).2 = 42 ∧
  (ToMemoryType (H := tritonserver_h) 42 7).2 = 42.
Proof.
  apply (@error_leaves_output_unwritten tritonserver_h 42 3 2 (-1) 7);
    reflexivity.
Defined.

(** ** Rules for [runs] *)

Lemma extend_extend evs1 evs2 w :
  extend evs2 (extend evs1 w) = extend (evs1 ++ evs2) w.
Proof. unfold extend; cbn. by rewrite app_assoc. Qed.

Lemma record_extend e w : record e w = extend [e] w.
Proof. reflexivity. Qed.

Lemma runs_ret {A} (a : A) w Q : Q a w [] → runs (ret a) w Q.
Proof. intros HQ. exists a, w, []. by rewrite app_nil_r. Qed.

Lemma runs_bind {A B} (m : M A) (k : A → M B) w Q :
  runs m w (λ a w1 evs1, runs (k a) w1 (λ b w2 evs2, Q b w2 (evs1 ++ evs2))) →
  runs (bind m k) w Q.
Proof.
  intros (a & w1 & evs1 & Hm & Ht1 & b & w2 & evs2 & Hk & Ht2 & HQ).
  exists b, w2, (evs1 ++ evs2). unfold bind. rewrite Hm, Hk.
  by rewrite Ht2, Ht1, app_assoc.
Qed.

Lemma runs_emit e w Q : Q tt (record e w) [e] → runs (emit e) w Q.
Proof. intros HQ. by exists tt, (record e w), [e]. Qed.

Lemma runs_and {A} (m : M A) w (Q1 Q2 : A → World → list Event → Prop) :
  runs m w Q1 → runs m w Q2 →
  runs m w (λ a w' evs, Q1 a w' evs ∧ Q2 a w' evs).
Proof.
  intros (a & w1 & evs1 & Hm1 & Ht1 & H1) (a2 & w2 & evs2 & Hm2 & Ht2 & H2).
  rewrite Hm1 in Hm2. simplify_eq.
  rewrite Ht1 in Ht2. apply app_inv_head in Ht2 as ->.
  by exists a2, w2, evs2.
Qed.

Section ExternalFacts.
Context `{NativeHeaders} (rt : Runtime).

Lemma runs_malloc size w Q :
  (let p := malloc_returns rt w size in
   Q p (record (ev_malloc size p) w) [ev_malloc size p]) →
  runs (malloc rt size) w Q.
Proof. intros HQ. by eexists _, _, _. Qed.

Lemma runs_cudaSetDevice device w Q :
  (let err := cudaSetDevice_returns rt w device in
   Q err (record (ev_cudaSetDevice device err) w)
     [ev_cudaSetDevice device err]) →
  runs (cudaSetDevice rt device) w Q.
Proof. intros HQ. by eexists _, _, _. Qed.

Lemma runs_cudaHostAlloc size flags w Q :
  (let r := cudaHostAlloc_returns rt w size flags in
   Q r (record (ev_cudaHostAlloc size flags r.1 r.2) w)
     [ev_cudaHostAlloc size flags r.1 r.2]) →
  runs (cudaHostAlloc rt size flags) w Q.
Proof. intros HQ. by eexists _, _, _. Qed.

Lemma runs_cudaMalloc size w Q :
  (let r := cudaMalloc_returns rt w size in
   Q r (record (ev_cudaMalloc size r.1 r.2) w)
     [ev_cudaMalloc size r.1 r.2]) →
  runs (cudaMalloc rt size) w Q.
Proof. intros HQ. by eexists _, _, _. Qed.

Lemma runs_cudaFreeHost p w Q :
  (let err := cudaFreeHost_returns rt w p in
   Q err (record (ev_cudaFreeHost p err) w) [ev_cudaFreeHost p err]) →
  runs (cudaFreeHost rt p) w Q.
Proof. intros HQ. by eexists _, _, _. Qed.

Lemma runs_cudaFree p w Q :
  (let err := cudaFree_returns rt w p in
   Q err (record (ev_cudaFree p err) w) [ev_cudaFree p err]) →
  runs (cudaFree rt p) w Q.
Proof. intros HQ. by eexists _, _, _. Qed.

Lemma runs_new_string content w Q :
  (let p := new_returns rt w in
   Q p (record (ev_new_string content p)
          (set_strings (<[p := content]> (strings w)) w))
     [ev_new_string content p]) →
  runs (new_string rt content) w Q.
Proof. intros HQ. by eexists _, _, _. Qed.

Lemma runs_read_string p s w Q :
  strings w !! p = Some s → Q s w [] → runs (read_string p) w Q.
Proof.
  intros Hp HQ. exists s, w, []. unfold read_string. rewrite Hp.
  by rewrite app_nil_r.
Qed.

Lemma runs_delete_string p s w Q :
  p ≠ nullptr → strings w !! p = Some s →
  Q tt (record (ev_delete_string p) (set_strings (delete p (strings w)) w))
    [ev_delete_string p] →
  runs (delete_string p) w Q.
Proof.
  intros Hp Hs HQ. eexists _, _, _. unfold delete_string.
  apply Z.eqb_neq in Hp. rewrite Hp, Hs. eauto.
Qed.

(** Logging returns, adds only log calls to the trace and changes nothing
    else. *)
Lemma runs_LOG_MESSAGE LEVEL MSG w Q :
  (∀ evs, Forall (λ e, is_log_call e = true) evs → Q tt (extend evs w) evs) →
  runs (LOG_MESSAGE rt LEVEL MSG) w Q.
Proof.
  intros HQ.
  unfold LOG_MESSAGE, LOG_IF_ERROR, IGNORE_ERROR, TRITONSERVER_LogMessage,
    TRITONSERVER_ErrorDelete, emit, bind, ret, runs.
  repeat case_match; simplify_eq; rewrite ?record_extend, ?extend_extend;
    (eexists _, _, _; split; [reflexivity|]; split; [reflexivity|]);
    apply HQ; by repeat constructor.
Qed.

End ExternalFacts.

(** ** [ResponseAlloc] *)

Lemma log_call_is_no_allocator_call evs :
  Forall (λ e, is_log_call e = true) evs →
  Forall (λ e, is_allocator_call e = false ∧ is_cuda_call e = false) evs.
Proof. intros Hlog. eapply Forall_impl; [exact Hlog|]. by intros []. Qed.

#[local] Arguments LOG_MESSAGE : simpl never.

Lemma log_call_elem evs e :
  Forall (λ e, is_log_call e = true) evs → e ∈ evs → is_log_call e = true.
Proof. intros Hlog Hin. by apply (proj1 (Forall_forall _ _) Hlog). Qed.

(** An event that is no log call cannot come from logging. *)
Ltac alloc_log_absurd :=
  match goal with
  | Hlog : Forall (λ e, is_log_call e = true) ?evs, Hin : ?e ∈ ?evs |- _ =>
      let Hc := fresh in
      pose proof (log_call_elem _ _ Hlog Hin) as Hc;
      tryif is_var e then destruct e else idtac; cbn in Hc; simplify_eq
  end.

(** An event that stands in a list written out. *)
Ltac find_event :=
  repeat first [apply list_elem_of_here | apply list_elem_of_further].

(** One step of a computation: the rule for its head. *)
Ltac run_step rt :=
  first
    [ apply (runs_LOG_MESSAGE rt); intros ? ?
    | apply runs_bind
    | apply runs_ret
    | apply (runs_malloc rt); intros ?
    | apply (runs_cudaSetDevice rt); intros ?
    | apply (runs_cudaHostAlloc rt); intros ?
    | apply (runs_cudaMalloc rt); intros ?
    | apply (runs_cudaFreeHost rt); intros ?
    | apply (runs_cudaFree rt); intros ?
    | apply (runs_new_string rt); intros ?
    | apply runs_emit ].

(** All the paths through a computation made of total calls. *)
Ltac run_all rt := repeat (run_step rt || case_match).

Section ResponseAllocFacts.
Context `{NativeHeaders}.
Variable TRITON_ENABLE_GPU : bool.
Variable rt : Runtime.

Lemma device_error_is_fatal_spec (err : Z) :
  device_error_is_fatal err
  = negb (bool_decide (err ∈ [cudaSuccess; cudaErrorNoDevice;
                              cudaErrorInsufficientDriver])).
Proof.
  unfold device_error_is_fatal. rewrite <- !negb_orb. f_equal.
  apply eq_true_iff_eq.
  rewrite bool_decide_eq_true, !orb_true_iff, !Z.eqb_eq.
  rewrite !elem_of_cons, elem_of_nil. tauto.
Qed.

(** C3. A request for zero bytes succeeds with a null buffer and a null tag;
    it calls no allocator ([malloc], [cudaHostAlloc], [cudaMalloc]) and
    creates no tag object. *)
Theorem ResponseAlloc_zero_bytes (allocator : Z) (tensor_name : string)
    (preferred_memory_type preferred_memory_type_id userp : Z)
    (out : AllocOut) (w : World) :
  ∃ out' w' evs,
    ResponseAlloc TRITON_ENABLE_GPU rt allocator tensor_name 0
      preferred_memory_type preferred_memory_type_id userp out w
    = Normal (None, out') w' ∧
    buffer out' = nullptr ∧ buffer_userp out' = nullptr ∧
    trace w' = trace w ++ evs ∧
    Forall (λ e, is_allocator_call e = false) evs ∧
    strings w' = strings w.
Proof.
  cut (runs (ResponseAlloc TRITON_ENABLE_GPU rt allocator tensor_name 0
               preferred_memory_type preferred_memory_type_id userp out) w
         (λ a w' evs, a.1 = None ∧ buffer a.2 = nullptr ∧
                      buffer_userp a.2 = nullptr ∧
                      Forall (λ e, is_allocator_call e = false) evs ∧
                      strings w' = strings w)).
  { intros ([r out'] & w' & evs & Hrun & Htrace & Hr & ?). cbn in Hr.
    subst r. exists out', w', evs. tauto. }
  unfold ResponseAlloc. cbn. run_all rt. cbn. rewrite app_nil_r.
  repeat split; try done.
  eapply Forall_impl; [by apply log_call_is_no_allocator_call|].
  by intros e [? ?].
Qed.

(** C10. Whatever the request, [ResponseAlloc] returns, and the memory type
    id it reports is the preferred one: on the zero-byte path, on the device
    paths, when the memory type is coerced to CPU, and when it returns an
    error. *)
Theorem ResponseAlloc_reports_preferred_id (allocator : Z)
    (tensor_name : string) (byte_size : Z)
    (preferred_memory_type preferred_memory_type_id userp : Z)
    (out : AllocOut) (w : World) :
  ∃ r out' w',
    ResponseAlloc TRITON_ENABLE_GPU rt allocator tensor_name byte_size
      preferred_memory_type preferred_memory_type_id userp out w
    = Normal (r, out') w' ∧
    actual_memory_type_id out' = preferred_memory_type_id.
Proof.
  cut (runs (ResponseAlloc TRITON_ENABLE_GPU rt allocator tensor_name
               byte_size preferred_memory_type preferred_memory_type_id
               userp out) w
         (λ a _ _, actual_memory_type_id a.2 = preferred_memory_type_id)).
  { intros ([r out'] & w' & evs & Hrun & _ & Hid). by exists r, out', w'. }
  unfold ResponseAlloc, publish_allocation. run_all rt; reflexivity.
Qed.

(** C4. A non-zero request whose preferred memory type is none of the three
    native memory types, or is a device type in a build without
    [TRITON_ENABLE_GPU], does not fail: the buffer is asked from [malloc],
    no CUDA call is made, and the reported memory type is
    [TRITONSERVER_MEMORY_CPU]. *)
Theorem ResponseAlloc_unrecognized_type_uses_malloc (allocator : Z)
    (tensor_name : string) (byte_size : Z)
    (preferred_memory_type preferred_memory_type_id userp : Z)
    (out : AllocOut) (w : World) :
  byte_size ≠ 0 →
  preferred_memory_type ∉ [TRITONSERVER_MEMORY_CPU;
                           TRITONSERVER_MEMORY_CPU_PINNED;
                           TRITONSERVER_MEMORY_GPU]
  ∨ (TRITON_ENABLE_GPU = false ∧
     preferred_memory_type ∈ [TRITONSERVER_MEMORY_CPU_PINNED;
                              TRITONSERVER_MEMORY_GPU]) →
  ∃ out' w' rest,
    ResponseAlloc TRITON_ENABLE_GPU rt allocator tensor_name byte_size
      preferred_memory_type preferred_memory_type_id userp out w
    = Normal (None, out') w' ∧
    actual_memory_type out' = TRITONSERVER_MEMORY_CPU ∧
    trace w' =
      trace w ++ ev_malloc byte_size (malloc_returns rt w byte_size) :: rest ∧
    Forall (λ e, is_allocator_call e = false ∧ is_cuda_call e = false) rest.
Proof.
  intros Hsize Htype.
  cut (runs (ResponseAlloc TRITON_ENABLE_GPU rt allocator tensor_name
               byte_size preferred_memory_type preferred_memory_type_id
               userp out) w
         (λ a _ evs, a.1 = None ∧
            actual_memory_type a.2 = TRITONSERVER_MEMORY_CPU ∧
            ∃ rest,
              evs = ev_malloc byte_size (malloc_returns rt w byte_size) :: rest ∧
              Forall (λ e, is_allocator_call e = false ∧ is_cuda_call e = false)
                rest)).
  { intros ([r out'] & w' & evs & Hrun & Htrace & Hr & Hty & rest & -> & ?).
    cbn in Hr. subst r. by exists out', w', rest. }
  assert (Hdefault : has_device_case TRITON_ENABLE_GPU preferred_memory_type
                     = false).
  { unfold has_device_case. set_unfold in Htype.
    destruct Htype as [Hnot|[-> _]]; [|done].
    destruct TRITON_ENABLE_GPU; [|done]. cbn.
    apply orb_false_intro; apply Z.eqb_neq; tauto. }
  unfold has_device_case in Hdefault.
  unfold ResponseAlloc, publish_allocation. cbn.
  apply Z.eqb_neq in Hsize. rewrite Hsize.
  destruct TRITON_ENABLE_GPU; cbn in Hdefault |- *.
  - apply orb_false_elim in Hdefault as [-> ->].
    run_all rt; cbn; (split; [done|]; split; [done|]); eexists;
      (split; [reflexivity|]).
    + constructor; [done|]. rewrite app_nil_r.
      by apply log_call_is_no_allocator_call.
    + constructor.
  - run_all rt; cbn; (split; [done|]; split; [done|]); eexists;
      (split; [reflexivity|]).
    + constructor; [done|]. rewrite app_nil_r.
      by apply log_call_is_no_allocator_call.
    + constructor.
Qed.

(** The calls of a non-zero request.  On the host path [malloc] is called
    for the requested size, and nothing else allocates.  On a device path
    the device is selected first, by the memory type id converted to [int]:
    an error other than the two tolerated ones ends the request there, and
    otherwise the CUDA allocator of the memory type is called for the
    requested size. *)
Lemma ResponseAlloc_calls (allocator : Z) (tensor_name : string)
    (byte_size : Z) (preferred_memory_type preferred_memory_type_id userp : Z)
    (out : AllocOut) (w : World) :
  byte_size ≠ 0 →
  runs (ResponseAlloc TRITON_ENABLE_GPU rt allocator tensor_name byte_size
          preferred_memory_type preferred_memory_type_id userp out) w
    (λ a _ evs,
       (has_device_case TRITON_ENABLE_GPU preferred_memory_type = false →
          ∃ rest,
            evs = ev_malloc byte_size (malloc_returns rt w byte_size) :: rest ∧
            Forall (λ e, is_allocator_call e = false ∧ is_cuda_call e = false)
              rest) ∧
       (has_device_case TRITON_ENABLE_GPU preferred_memory_type = true →
          let device := int_of_int64_t preferred_memory_type_id in
          let err := cudaSetDevice_returns rt w device in
          let w1 := record (ev_cudaSetDevice device err) w in
          if device_error_is_fatal err then
            evs = [ev_cudaSetDevice device err] ∧
            a.1 = Some (TRITONSERVER_ErrorNew TRITONSERVER_ERROR_INTERNAL
                          ("unable to recover current CUDA device: " +:+
                           cudaGetErrorString err))
          else
            ∃ rest,
              evs = ev_cudaSetDevice device err
                    :: (if preferred_memory_type
                           =? TRITONSERVER_MEMORY_CPU_PINNED
                        then
                          let r := cudaHostAlloc_returns rt w1 byte_size
                                     cudaHostAllocPortable in
                          ev_cudaHostAlloc byte_size cudaHostAllocPortable
                            r.1 r.2
                        else
                          let r := cudaMalloc_returns rt w1 byte_size in
                          ev_cudaMalloc byte_size r.1 r.2)
                    :: rest ∧
              Forall (λ e, is_allocator_call e = false ∧ is_cuda_call e = false)
                rest)).
Proof.
  intros Hsize.
  unfold ResponseAlloc, publish_allocation, has_device_case.
  apply Z.eqb_neq in Hsize. rewrite Hsize. cbn.
  destruct TRITON_ENABLE_GPU; cbn;
    [destruct (preferred_memory_type =? TRITONSERVER_MEMORY_CPU_PINNED) eqn:Hp;
     [|destruct (preferred_memory_type =? TRITONSERVER_MEMORY_GPU) eqn:Hg]|];
    cbn.
  all: repeat (first [run_step rt | case_match];
               repeat match goal with x := _ |- _ => subst x end).
  all: cbn; rewrite ?app_nil_r.
  all: (split; intros Hcase); try done.
  all: try (split; reflexivity).
  all: try (eexists; split; [reflexivity|]).
  all: try apply Forall_nil_2.
  all: try (constructor; [done|]; by apply log_call_is_no_allocator_call).
Qed.

(** C1, as the code has it.  For a request of non-zero size [ResponseAlloc]
    returns, and:
    - without a device [case] for the memory type it asks [malloc] for the
      requested size;
    - with one it first selects the device, by the memory type id converted
      to [int]: an error other than [cudaErrorNoDevice] and
      [cudaErrorInsufficientDriver] is returned as an internal error, no
      allocator having been called; otherwise, also after one of the two
      tolerated errors, it asks the CUDA allocator of the memory type for
      the requested size;
    - a failing [cudaHostAlloc] or [cudaMalloc] is returned as an internal
      error;
    - whenever an error is returned, the buffer and tag cells are untouched
      and no tag object has been created;
    - success is returned only after an allocator call that reported no
      failure;
    - whenever an allocator call reported no failure and handed back a
      non-null pointer, success is returned, the buffer cell holds that
      pointer and the tag cell holds the non-null address of a new string
      holding the tensor name. *)
Theorem ResponseAlloc_nonzero_request (allocator : Z) (tensor_name : string)
    (byte_size : Z) (preferred_memory_type preferred_memory_type_id userp : Z)
    (out : AllocOut) (w : World) :
  byte_size ≠ 0 →
  ∃ r out' w' evs,
    ResponseAlloc TRITON_ENABLE_GPU rt allocator tensor_name byte_size
      preferred_memory_type preferred_memory_type_id userp out w
    = Normal (r, out') w' ∧
    trace w' = trace w ++ evs ∧
    (has_device_case TRITON_ENABLE_GPU preferred_memory_type = false →
       ∃ rest,
         evs = ev_malloc byte_size (malloc_returns rt w byte_size) :: rest ∧
         Forall (λ e, is_allocator_call e = false ∧ is_cuda_call e = false)
           rest) ∧
    (has_device_case TRITON_ENABLE_GPU preferred_memory_type = true →
       let device := int_of_int64_t preferred_memory_type_id in
       let err := cudaSetDevice_returns rt w device in
       let w1 := record (ev_cudaSetDevice device err) w in
       if bool_decide (err ∈ [cudaSuccess; cudaErrorNoDevice;
                              cudaErrorInsufficientDriver]) then
         ∃ rest,
           evs = ev_cudaSetDevice device err
                 :: (if preferred_memory_type
                        =? TRITONSERVER_MEMORY_CPU_PINNED
                     then
                       let a := cudaHostAlloc_returns rt w1 byte_size
                                  cudaHostAllocPortable in
                       ev_cudaHostAlloc byte_size cudaHostAllocPortable
                         a.1 a.2
                     else
                       let a := cudaMalloc_returns rt w1 byte_size in
                       ev_cudaMalloc byte_size a.1 a.2)
                 :: rest ∧
           Forall (λ e, is_allocator_call e = false ∧ is_cuda_call e = false)
             rest
       else
         evs = [ev_cudaSetDevice device err] ∧
         r = Some (TRITONSERVER_ErrorNew TRITONSERVER_ERROR_INTERNAL
                     ("unable to recover current CUDA device: " +:+
                      cudaGetErrorString err))) ∧
    (∀ dev err, ev_cudaSetDevice dev err ∈ evs →
       if bool_decide (err ∈ [cudaSuccess; cudaErrorNoDevice;
                              cudaErrorInsufficientDriver]) then
         Exists (λ e, is_allocator_call e = true) evs
       else
         r = Some (TRITONSERVER_ErrorNew TRITONSERVER_ERROR_INTERNAL
                     ("unable to recover current CUDA device: " +:+
                      cudaGetErrorString err)) ∧
         Forall (λ e, is_allocator_call e = false) evs) ∧
    (∀ size flags err p, ev_cudaHostAlloc size flags err p ∈ evs →
       err ≠ cudaSuccess →
       r = Some (TRITONSERVER_ErrorNew TRITONSERVER_ERROR_INTERNAL
                   ("cudaHostAlloc failed: " +:+ cudaGetErrorString err))) ∧
    (∀ size err p, ev_cudaMalloc size err p ∈ evs →
       err ≠ cudaSuccess →
       r = Some (TRITONSERVER_ErrorNew TRITONSERVER_ERROR_INTERNAL
                   ("cudaMalloc failed: " +:+ cudaGetErrorString err))) ∧
    (is_Some r →
       buffer out' = buffer out ∧ buffer_userp out' = buffer_userp out ∧
       strings w' = strings w) ∧
    (r = None →
       Exists (λ e, is_allocator_call e = true ∧
                    cuda_allocation_failed e = false) evs) ∧
    (∀ e p, e ∈ evs → allocated_by e = Some p →
       cuda_allocation_failed e = false → p ≠ nullptr →
       r = None ∧ buffer out' = p ∧ buffer_userp out' ≠ nullptr ∧
       strings w !! buffer_userp out' = None ∧
       strings w' !! buffer_userp out' = Some tensor_name).
Proof.
  intros Hsize.
  cut (runs (ResponseAlloc TRITON_ENABLE_GPU rt allocator tensor_name
               byte_size preferred_memory_type preferred_memory_type_id
               userp out) w
         (λ a w' evs,
            (∀ dev err, ev_cudaSetDevice dev err ∈ evs →
               if device_error_is_fatal err then
                 a.1 = Some (TRITONSERVER_ErrorNew TRITONSERVER_ERROR_INTERNAL
                               ("unable to recover current CUDA device: " +:+
                                cudaGetErrorString err)) ∧
                 Forall (λ e, is_allocator_call e = false) evs
               else
                 Exists (λ e, is_allocator_call e = true) evs) ∧
            (∀ size flags err p, ev_cudaHostAlloc size flags err p ∈ evs →
               err ≠ cudaSuccess →
               a.1 = Some (TRITONSERVER_ErrorNew TRITONSERVER_ERROR_INTERNAL
                             ("cudaHostAlloc failed: " +:+
                              cudaGetErrorString err))) ∧
            (∀ size err p, ev_cudaMalloc size err p ∈ evs →
               err ≠ cudaSuccess →
               a.1 = Some (TRITONSERVER_ErrorNew TRITONSERVER_ERROR_INTERNAL
                             ("cudaMalloc failed: " +:+
                              cudaGetErrorString err))) ∧
            (is_Some a.1 →
               buffer a.2 = buffer out ∧ buffer_userp a.2 = buffer_userp out ∧
               strings w' = strings w) ∧
            (a.1 = None →
               Exists (λ e, is_allocator_call e = true ∧
                            cuda_allocation_failed e = false) evs) ∧
            (∀ e p, e ∈ evs → allocated_by e = Some p →
               cuda_allocation_failed e = false → p ≠ nullptr →
               a.1 = None ∧ buffer a.2 = p ∧ buffer_userp a.2 ≠ nullptr ∧
               strings w !! buffer_userp a.2 = None ∧
               strings w' !! buffer_userp a.2 = Some tensor_name))).
  { intros Hrest.
    pose proof (ResponseAlloc_calls allocator tensor_name byte_size
                  preferred_memory_type preferred_memory_type_id userp out w
                  Hsize) as Hcalls.
    destruct (runs_and _ _ _ _ Hcalls Hrest)
      as ([r out'] & w' & evs & Hrun & Htrace & [Hhost Hdevice]
          & Hselect & HQ).
    exists r, out', w', evs. cbn in Hhost, Hdevice, Hselect, HQ.
    split_and!; [done|done|done| | |tauto..].
    - intros Hcase. specialize (Hdevice Hcase). cbv zeta in Hdevice |- *.
      rewrite device_error_is_fatal_spec in Hdevice.
      by destruct (bool_decide _).
    - intros dev err Hin. specialize (Hselect dev err Hin).
      rewrite device_error_is_fatal_spec in Hselect.
      by destruct (bool_decide _). }
  unfold ResponseAlloc, publish_allocation.
  apply Z.eqb_neq in Hsize. rewrite Hsize.
  run_all rt; cbn.
  all: rewrite ?app_nil_r.
  all: repeat match goal with
         | p := new_returns rt ?w0 |- _ =>
             let Hp := fresh "Hp" in
             pose proof (new_returns_fresh rt w0) as Hp;
             fold p in Hp; cbn in Hp; clearbody p
         | x := _ |- _ => clearbody x
         end.
  all: repeat match goal with
         | Hb : negb _ = true |- _ => apply negb_true_iff in Hb
         | Hb : negb _ = false |- _ => apply negb_false_iff in Hb
         | Hb : (_ =? _) = true |- _ => apply Z.eqb_eq in Hb
         | Hb : (_ =? _) = false |- _ => apply Z.eqb_neq in Hb
         end.
  all: split; [|split; [|split; [|split; [|split]]]].
  all: try (intros [? [=]]).
  all: try (intros; done).
  all: try (intros; set_unfold; destruct_or?; simplify_eq;
            try alloc_log_absurd; done).
  all: try (intros dev err0 Hin; set_unfold in Hin; destruct_or?;
            simplify_eq; try alloc_log_absurd;
            match goal with
            | Hf : device_error_is_fatal _ = _ |- _ => rewrite Hf
            end;
            first [ split; [done|by repeat constructor]
                  | by repeat first [ apply Exists_cons_hd; reflexivity
                                    | apply Exists_cons_tl ] ]).
  all: try (intros _;
            repeat first
              [ apply Exists_cons_hd; split; [reflexivity|]; cbn;
                first [ reflexivity | by apply negb_false_iff, Z.eqb_eq ]
              | apply Exists_cons_tl ]).
  all: intros e q Hin Hal Hok Hnn; set_unfold in Hin; destruct_or?;
         try alloc_log_absurd; simplify_eq; cbn in Hal, Hok; simplify_eq.
  all: try (apply negb_false_iff, Z.eqb_eq in Hok; done).
  all: destruct Hp as [Hp1 Hp2]; split_and!; try done;
         by rewrite lookup_insert_eq.
Qed.

End ResponseAllocFacts.

(** C1, as stated, fails twice.  When the host is out of memory ([malloc]
    returns [NULL]) a 16-byte CPU request is answered with success although
    no buffer was allocated and the buffer and tag cells stay null.  When
    [cudaSetDevice] fails with [cudaErrorNoDevice] (100) a 16-byte pinned
    request in a GPU build is not stopped: [cudaHostAlloc] is still called
    and the request succeeds. *)
Lemma ResponseAlloc_success_without_buffer_or_device :
  ResponseAlloc (H := tritonserver_h) false runtime_out_of_memory
    0 "OUTPUT0" 16 0 0 0 no_output empty_world
  = Normal (None, mkAllocOut nullptr nullptr 0 0)
      (mkWorld ∅ ∅ ∅ [ev_malloc 16 0])
  ∧
  ResponseAlloc (H := tritonserver_h) true runtime_no_device
    0 "OUTPUT0" 16 1 0 0 no_output empty_world
  = Normal (None, mkAllocOut 8192 1 1 0)
      (mkWorld {[1 := "OUTPUT0"]} ∅ ∅
         [ev_cudaSetDevice 0 100; ev_cudaHostAlloc 16 1 0 8192;
          ev_new_string "OUTPUT0" 1;
          ev_LogMessage 3
            "allocated 16 bytes in CPU_PINNED for result tensor OUTPUT0"]).
Proof. split; vm_compute; reflexivity. Qed.

Lemma ResponseAlloc_nonzero_request_witness :
  16 ≠ 0 ∧
  ∃ out' w',
    ResponseAlloc (H := tritonserver_h) true runtime_invalid_device
      0 "OUTPUT0" 16 2 3 0 no_output empty_world
    = Normal
        (Some (TRITONSERVER_ErrorNew 1
                 "unable to recover current CUDA device: invalid device ordinal"),
         out') w' ∧
    trace w' = [ev_cudaSetDevice 3 101].
Proof.
  assert (Hsize : 16 ≠ 0) by lia.
  split; [exact Hsize|].
  destruct (@ResponseAlloc_nonzero_request tritonserver_h true
              runtime_invalid_device 0 "OUTPUT0" 16 2 3 0 no_output
              empty_world Hsize)
    as (r & out' & w' & evs & Hrun & Htrace & _ & Hdevice & _).
  destruct (Hdevice eq_refl) as [Hevs Hr].
  exists out', w'. rewrite Hrun, Htrace, Hevs, Hr. split; reflexivity.
Defined.

Lemma ResponseAlloc_unrecognized_type_uses_malloc_witness :
  16 ≠ 0 ∧
  ∃ out' w',
    ResponseAlloc (H := tritonserver_h) true runtime_healthy
      0 "OUTPUT0" 16 7 3 0 no_output empty_world
    = Normal (None, out') w' ∧
    actual_memory_type out' = 0.
Proof.
  assert (Hsize : 16 ≠ 0) by lia.
  split; [exact Hsize|].
  destruct (@ResponseAlloc_unrecognized_type_uses_malloc tritonserver_h true
              runtime_healthy 0 "OUTPUT0" 16 7 3 0 no_output empty_world
              Hsize) as (out' & w' & rest & Hrun & Hty & _).
  { left. apply (bool_decide_unpack _). vm_compute. exact I. }
  by exists out', w'.
Defined.

(** ** [ResponseRelease] *)

Lemma bind_Normal_inv {A B} (m : M A) (k : A → M B) w b w' :
  bind m k w = Normal b w' → ∃ a w1, m w = Normal a w1 ∧ k a w1 = Normal b w'.
Proof. unfold bind. destruct (m w) as [a w1| |]; [eauto|done|done]. Qed.

Lemma log_call_is_no_string_delete evs :
  Forall (λ e, is_log_call e = true) evs →
  filter (λ e, is_string_delete e = true) evs = [].
Proof.
  induction 1 as [|e evs He _ IH]; [done|].
  rewrite filter_cons, IH. destruct e; try done.
Qed.

Lemma no_string_delete_filter evs :
  Forall (λ e, is_string_delete e = false) evs →
  filter (λ e, is_string_delete e = true) evs = [].
Proof.
  induction 1 as [|e evs He _ IH]; [done|].
  rewrite filter_cons, IH. by rewrite decide_False by congruence.
Qed.

Section ResponseReleaseFacts.
Context `{NativeHeaders}.
Variable TRITON_ENABLE_GPU : bool.
Variable rt : Runtime.

(** The switch of [ResponseRelease] returns; it touches only the trace,
    deletes no string, and reports on [std::cerr] a memory type it has no
    [case] for and every failing CUDA call. *)
Lemma runs_free_by_memory_type buffer memory_type memory_type_id w Q :
  (∀ evs,
     Forall (λ e, is_string_delete e = false) evs →
     (memory_type ≠ TRITONSERVER_MEMORY_CPU →
      has_device_case TRITON_ENABLE_GPU memory_type = false →
        ev_cerr ("error: unexpected buffer allocated in CUDA managed memory"
                 +:+ endl) ∈ evs) →
     (∀ e err,
        e ∈ evs →
        (∃ dev, e = ev_cudaSetDevice dev err) ∨
        (∃ p, e = ev_cudaFreeHost p err) ∨
        (∃ p, e = ev_cudaFree p err) →
        err ≠ cudaSuccess →
        ev_cerr ("error: failed to cudaFree " +:+ pointer_to_string buffer +:+
                 ": " +:+ cudaGetErrorString err +:+ endl) ∈ evs) →
     Q tt (extend evs w) evs) →
  runs (free_by_memory_type TRITON_ENABLE_GPU rt buffer memory_type
          memory_type_id) w Q.
Proof.
  intros HQ.
  unfold free_by_memory_type, report_cuda_free_error, free, cerr,
    has_device_case in *.
  run_all rt; cbn; rewrite ?record_extend, ?extend_extend; cbn.
  all: repeat match goal with
         | Hb : negb _ = true |- _ => apply negb_true_iff in Hb
         | Hb : negb _ = false |- _ => apply negb_false_iff in Hb
         | Hb : (_ =? _) = true |- _ => apply Z.eqb_eq in Hb
         | Hb : (_ =? _) = false |- _ => apply Z.eqb_neq in Hb
         | Hb : _ && _ = true |- _ => apply andb_true_iff in Hb as [? ?]
         end.
  all: apply HQ; [by repeat constructor| |].
  all: try (intros Hne Hcase; first
              [ done
              | by find_event
              | subst; rewrite ?Z.eqb_refl, ?orb_true_r in Hcase; done ]).
  all: intros e err' Hin Hkind Herr;
         rewrite ?elem_of_cons, ?elem_of_nil in Hin;
         destruct_or?;
         repeat match goal with Hex : ∃ _, _ |- _ => destruct Hex end;
         simplify_eq; first [ done | congruence | by find_event ].
Qed.

(** C8. [ResponseRelease] never returns an error: whenever it returns, it
    returns success.  Called with a null tag or with the address of a live
    tag it does return, and it deletes exactly one string: the tag, or for
    a null tag the ["<unknown>"] placeholder that it has just created.  A
    memory type without a [case] of its own, a failing [cudaSetDevice] and a
    failing CUDA deallocation show only as a line on [std::cerr]. *)
Theorem ResponseRelease_returns_success (allocator buffer buffer_userp : Z)
    (byte_size memory_type memory_type_id : Z) (w : World) :
  let release :=
    ResponseRelease TRITON_ENABLE_GPU rt allocator buffer buffer_userp
      byte_size memory_type memory_type_id in
  let name :=
    if buffer_userp =? nullptr then new_returns rt w else buffer_userp in
  (∀ r w', release w = Normal r w' → r = None) ∧
  (buffer_userp = nullptr ∨ is_Some (strings w !! buffer_userp) →
   ∃ w' evs,
     release w = Normal None w' ∧
     trace w' = trace w ++ evs ∧
     filter (λ e, is_string_delete e = true) evs = [ev_delete_string name] ∧
     strings w' = delete name (strings w) ∧
     (buffer_userp = nullptr →
        ev_new_string "<unknown>" name ∈ evs ∧ strings w' = strings w) ∧
     (memory_type ≠ TRITONSERVER_MEMORY_CPU →
      has_device_case TRITON_ENABLE_GPU memory_type = false →
        ev_cerr ("error: unexpected buffer allocated in CUDA managed memory"
                 +:+ endl) ∈ evs) ∧
     (∀ e err,
        e ∈ evs →
        (∃ dev, e = ev_cudaSetDevice dev err) ∨
        (∃ p, e = ev_cudaFreeHost p err) ∨
        (∃ p, e = ev_cudaFree p err) →
        err ≠ cudaSuccess →
        ev_cerr ("error: failed to cudaFree " +:+ pointer_to_string buffer +:+
                 ": " +:+ cudaGetErrorString err +:+ endl) ∈ evs)).
Proof.
  intros release name. split.
  - intros r w' Hrun. unfold release, ResponseRelease in Hrun.
    repeat (apply bind_Normal_inv in Hrun as (? & ? & _ & Hrun)).
    unfold ret in Hrun. congruence.
  - intros Htag.
    cut (runs release w
           (λ r w' evs,
              r = None ∧
              filter (λ e, is_string_delete e = true) evs
              = [ev_delete_string name] ∧
              strings w' = delete name (strings w) ∧
              (buffer_userp = nullptr →
                 ev_new_string "<unknown>" name ∈ evs ∧
                 strings w' = strings w) ∧
              (memory_type ≠ TRITONSERVER_MEMORY_CPU →
               has_device_case TRITON_ENABLE_GPU memory_type = false →
                 ev_cerr
                   ("error: unexpected buffer allocated in CUDA managed memory"
                    +:+ endl) ∈ evs) ∧
              (∀ e err,
                 e ∈ evs →
                 (∃ dev, e = ev_cudaSetDevice dev err) ∨
                 (∃ p, e = ev_cudaFreeHost p err) ∨
                 (∃ p, e = ev_cudaFree p err) →
                 err ≠ cudaSuccess →
                 ev_cerr ("error: failed to cudaFree " +:+
                          pointer_to_string buffer +:+ ": " +:+
                          cudaGetErrorString err +:+ endl) ∈ evs))).
    { intros (r & w' & evs & Hrun & Htrace & -> & HQ). by exists w', evs. }
    unfold release, ResponseRelease. subst name.
    destruct (Z.eqb_spec buffer_userp nullptr) as [Hnull|Hlive]; cbn.
    + (* the placeholder *)
      destruct (new_returns_fresh rt w) as [Hp Hfresh].
      apply runs_bind, runs_new_string. intros p. subst p.
      apply runs_bind. eapply runs_read_string; [apply lookup_insert_eq|].
      apply runs_bind, runs_LOG_MESSAGE. intros evs1 Hlog.
      apply runs_bind, runs_free_by_memory_type. intros evs2 Hkeep Hodd Hfail.
      apply runs_bind.
      eapply runs_delete_string; [exact Hp|apply lookup_insert_eq|].
      apply runs_ret. cbn -[filter]. rewrite ?app_nil_r.
      split; [done|]. split; [|split; [|split; [|split]]].
      * rewrite filter_cons, !filter_app, filter_cons, filter_nil.
        by rewrite (log_call_is_no_string_delete _ Hlog),
          (no_string_delete_filter _ Hkeep).
      * by rewrite delete_insert_eq.
      * intros _. split; [apply list_elem_of_here|].
        by rewrite delete_insert_eq, delete_id.
      * intros Hne Hcase. rewrite elem_of_cons, !elem_of_app. auto.
      * intros e err Hin Hkind Herr.
        rewrite elem_of_cons, !elem_of_app in Hin |- *.
        destruct Hin as [->|[Hin|[Hin|Hin]]].
        -- destruct Hkind as [[? ?]|[[? ?]|[? ?]]]; done.
        -- pose proof (log_call_elem _ _ Hlog Hin) as Hc.
           destruct Hkind as [[? ->]|[[? ->]|[? ->]]]; done.
        -- eauto.
        -- apply list_elem_of_singleton in Hin as ->.
           destruct Hkind as [[? ?]|[[? ?]|[? ?]]]; done.
    + (* the tag handed over by the engine *)
      destruct Htag as [?|[s Hs]]; [done|].
      apply runs_bind, runs_ret.
      apply runs_bind. eapply runs_read_string; [exact Hs|].
      apply runs_bind, runs_LOG_MESSAGE. intros evs1 Hlog.
      apply runs_bind, runs_free_by_memory_type. intros evs2 Hkeep Hodd Hfail.
      apply runs_bind.
      eapply runs_delete_string; [exact Hlive|exact Hs|].
      apply runs_ret. cbn -[filter]. rewrite ?app_nil_r.
      split; [done|]. split; [|split; [|split; [|split]]].
      * rewrite !filter_app, filter_cons, filter_nil.
        by rewrite (log_call_is_no_string_delete _ Hlog),
          (no_string_delete_filter _ Hkeep).
      * done.
      * done.
      * intros Hne Hcase. rewrite !elem_of_app. auto.
      * intros e err Hin Hkind Herr.
        rewrite !elem_of_app in Hin |- *.
        destruct Hin as [Hin|[Hin|Hin]].
        -- pose proof (log_call_elem _ _ Hlog Hin) as Hc.
           destruct Hkind as [[? ->]|[[? ->]|[? ->]]]; done.
        -- eauto.
        -- apply list_elem_of_singleton in Hin as ->.
           destruct Hkind as [[? ?]|[[? ?]|[? ?]]]; done.
Qed.

End ResponseReleaseFacts.

Lemma ResponseRelease_returns_success_witness :
  (nullptr = nullptr ∨ is_Some (strings empty_world !! nullptr)) ∧
  ∃ w',
    ResponseRelease (H := tritonserver_h) true runtime_free_fails
      0 4096 nullptr 16 2 0 empty_world
    = Normal None w' ∧
    strings w' = strings empty_world.
Proof.
  assert (Htag : nullptr = nullptr ∨ is_Some (strings empty_world !! nullptr))
    by (left; reflexivity).
  split; [exact Htag|].
  destruct (proj2 (@ResponseRelease_returns_success tritonserver_h true
                     runtime_free_fails 0 4096 nullptr 16 2 0 empty_world)
              Htag)
    as (w' & evs & Hrun & _ & _ & _ & Hplaceholder & _).
  exists w'. split; [exact Hrun|]. by apply Hplaceholder.
Defined.

(** ** [InferResponseComplete] *)

Section CompletionFacts.

(** What one firing of the completion callback can do. *)
Lemma InferResponseComplete_cases response flags userp w :
  (response = nullptr ∧
   InferResponseComplete response flags userp w = Normal tt w) ∨
  InferResponseComplete response flags userp w = Undefined ∨
  (∃ what, InferResponseComplete response flags userp w = Throws what w) ∨
  (∃ s w',
     response ≠ nullptr ∧
     promises w !! userp = Some s ∧
     shared_states w !! s = Some Pending ∧
     InferResponseComplete response flags userp w = Normal tt w' ∧
     shared_states w' = <[s := Ready response]> (shared_states w) ∧
     ∃ evs,
       trace w' = trace w ++ ev_set_value userp s response :: evs ∧
       Forall (λ e, ∀ s', fulfils s' e = false) evs).
Proof.
  unfold InferResponseComplete.
  destruct (Z.eqb_spec response nullptr) as [->|Hresponse]; cbn;
    [by left|].
  unfold bind, promise_set_value, delete_promise.
  destruct (promises w !! userp) as [s|] eqn:Hp; [|by right; left].
  destruct (shared_states w !! s) as [[| |]|] eqn:Hs;
    try (right; right; left; by eexists).
  right; right; right. cbn. rewrite Hp. cbn. rewrite lookup_insert_eq.
  destruct (userp =? nullptr); eexists s, _;
    (split; [done|]; split; [done|]; split; [done|]; split; [done|]);
    cbn; (split; [done|]).
  - exists []. split; [done|]. constructor.
  - exists [ev_delete_promise userp]. rewrite <- app_assoc.
    split; [done|]. by repeat constructor.
Qed.

Lemma fulfilments_app s evs1 evs2 :
  fulfilments s (evs1 ++ evs2)
  = (fulfilments s evs1 + fulfilments s evs2)%nat.
Proof. unfold fulfilments. by rewrite filter_app, length_app. Qed.

Lemma fulfilments_none s evs :
  Forall (λ e, ∀ s', fulfils s' e = false) evs → fulfilments s evs = 0%nat.
Proof.
  unfold fulfilments. induction 1 as [|e evs He _ IH]; [done|].
  rewrite filter_cons, decide_False; [done|]. by rewrite He.
Qed.

Lemma fulfilments_set_value s p s0 v evs :
  fulfilments s (ev_set_value p s0 v :: evs)
  = ((if decide (s0 = s) then 1 else 0) + fulfilments s evs)%nat.
Proof.
  unfold fulfilments. rewrite filter_cons. cbn.
  destruct (decide (s0 = s)) as [->|Hne].
  - by rewrite bool_decide_eq_true_2, decide_True.
  - by rewrite bool_decide_eq_false_2, decide_False.
Qed.

(** However often the callback fires, a shared state is fulfilled at most
    once, and only if it was pending. *)
Lemma fire_completions_fulfilments calls s :
  ∀ w w',
    final_world (fire_completions calls w) = Some w' →
    ∃ evs,
      trace w' = trace w ++ evs ∧
      (fulfilments s evs ≤ 1)%nat ∧
      (fulfilments s evs = 1%nat → shared_states w !! s = Some Pending).
Proof.
  induction calls as [|[[response flags] userp] calls IH]; intros w w' Hend.
  - cbn in Hend. injection Hend as <-. exists [].
    rewrite app_nil_r. repeat split; [by cbn; lia|done].
  - cbn [fire_completions] in Hend. unfold bind in Hend. cbn in Hend.
    destruct (InferResponseComplete_cases response flags userp w)
      as [[_ Hrun]|[Hrun|[[what Hrun]|Hrun]]].
    + rewrite Hrun in Hend. by apply IH.
    + by rewrite Hrun in Hend.
    + rewrite Hrun in Hend. cbn in Hend. injection Hend as <-. exists [].
      rewrite app_nil_r. repeat split; [by cbn; lia|done].
    + destruct Hrun as (s0 & w1 & _ & _ & Hpending & Hrun & Hstates & evs0
                        & Htrace & Hquiet).
      rewrite Hrun in Hend. apply IH in Hend as (evs & Hevs & Hle & Hone).
      exists (ev_set_value userp s0 response :: evs0 ++ evs).
      split; [by rewrite Hevs, Htrace, <- app_assoc|].
      rewrite fulfilments_set_value, fulfilments_app,
        (fulfilments_none _ _ Hquiet).
      rewrite Hstates in Hone.
      destruct (decide (s0 = s)) as [->|Hne].
      * rewrite lookup_insert_eq in Hone.
        assert (fulfilments s evs = 0%nat) as ->.
        { destruct (fulfilments s evs) as [|[|n]]; [done| |lia].
          by specialize (Hone eq_refl). }
        split; [cbn; lia|done].
      * rewrite lookup_insert_ne in Hone by done. cbn. split; [lia|done].
Qed.

End CompletionFacts.

(** C2. Fired with a null response, [InferResponseComplete] does nothing.
    Fired with a non-null response on a live promise whose shared state is
    pending, it makes exactly one call of [set_value], which stores that
    response, and then deletes the promise.  And however often the callback
    fires, no shared state is fulfilled more than once. *)
Theorem InferResponseComplete_fulfils_once :
  (∀ flags userp w, InferResponseComplete nullptr flags userp w = Normal tt w) ∧
  (∀ response flags userp s w,
     response ≠ nullptr → userp ≠ nullptr →
     promises w !! userp = Some s →
     shared_states w !! s = Some Pending →
     InferResponseComplete response flags userp w
     = Normal tt
         (mkWorld (strings w) (delete userp (promises w))
            (<[s := Ready response]> (shared_states w))
            (trace w ++ [ev_set_value userp s response;
                         ev_delete_promise userp]))) ∧
  (∀ calls s w w',
     final_world (fire_completions calls w) = Some w' →
     ∃ evs, trace w' = trace w ++ evs ∧ (fulfilments s evs ≤ 1)%nat).
Proof.
  split; [|split].
  - done.
  - intros response flags userp s w Hresponse Huserp Hp Hs.
    unfold InferResponseComplete, bind, promise_set_value, delete_promise.
    apply Z.eqb_neq in Hresponse, Huserp. rewrite Hresponse. cbn.
    rewrite Hp, Hs. cbn. rewrite Huserp, Hp. cbn.
    rewrite lookup_insert_eq. unfold record, set_promises, set_shared_states.
    cbn. by rewrite <- app_assoc.
  - intros calls s w w' Hend.
    apply (fire_completions_fulfilments calls s) in Hend
      as (evs & Htrace & Hle & _).
    by exists evs.
Qed.

Lemma InferResponseComplete_fulfils_once_witness :
  let w := mkWorld ∅ {[100 := 0%nat]} {[0%nat := Pending]} [] in
  (7 ≠ nullptr ∧ 100 ≠ nullptr ∧
   promises w !! 100 = Some 0%nat ∧ shared_states w !! 0%nat = Some Pending) ∧
  InferResponseComplete 7 0 100 w
  = Normal tt (mkWorld ∅ ∅ {[0%nat := Ready 7]}
                 [ev_set_value 100 0 7; ev_delete_promise 100]) ∧
  (∃ evs,
     trace (mkWorld ∅ ∅ {[0%nat := Ready 7]}
              [ev_set_value 100 0 7; ev_delete_promise 100])
     = trace w ++ evs ∧ (fulfilments 0 evs ≤ 1)%nat).
Proof.
  intros w.
  assert (Hresponse : 7 ≠ nullptr) by (unfold nullptr; lia).
  assert (Huserp : 100 ≠ nullptr) by (unfold nullptr; lia).
  assert (Hp : promises w !! 100 = Some 0%nat) by reflexivity.
  assert (Hs : shared_states w !! 0%nat = Some Pending) by reflexivity.
  destruct InferResponseComplete_fulfils_once as (_ & Hfulfil & Honce).
  split; [done|]. split.
  - rewrite (Hfulfil 7 0 100 0%nat w Hresponse Huserp Hp Hs).
    vm_compute. reflexivity.
  - apply (Honce [(0, 0, 100); (7, 0, 100)] 0%nat w).
    vm_compute. reflexivity.
Defined.

(** * Further properties *)

(** ** The translators, both ways *)

Section MoreTranslatorFacts.
Context `{NativeHeaders}.

Lemma ToTritonDataType_not_a_token (dtype : Z) (s : string) :
  s ∉ data_type_tokens →
  ToTritonDataType dtype s = (Error_Success, TRITONSERVER_TYPE_INVALID).
Proof.
  intros Hs. unfold ToTritonDataType.
  repeat match goal with
    | |- context [String.eqb s ?tok] =>
        destruct (String.eqb_spec s tok) as [->|_];
        [exfalso; apply Hs; apply list_elem_of_In; cbn; tauto|]
    end.
  reflexivity.
Qed.

Lemma ToTritonDataType_token (dtype : Z) (s : string) :
  s ∈ data_type_tokens →
  (ToTritonDataType dtype s).2 ∈ data_type_spellings.*2.
Proof.
  intros Hs. apply list_elem_of_In in Hs. cbn in Hs.
  repeat (destruct Hs as [<-|Hs]; [cbn; by find_event|]).
  destruct Hs.
Qed.

(** X1. Each of the four enum translators reports success exactly on the
    values of its enum. *)
Theorem translators_succeed_exactly_on_their_enum (cell x : Z) :
  (IsOk (ToTritonModelControlMode cell x).1 = true ↔
     x ∈ [MODEL_CONTROL_NONE; MODEL_CONTROL_POLL; MODEL_CONTROL_EXPLICIT]) ∧
  (IsOk (ToTritonLogFormat cell x).1 = true ↔
     x ∈ [LOG_DEFAULT; LOG_ISO8601]) ∧
  (IsOk (ToTritonMemoryType cell x).1 = true ↔
     x ∈ [CPU; CPU_PINNED; GPU]) ∧
  (IsOk (ToMemoryType cell x).1 = true ↔
     x ∈ [TRITONSERVER_MEMORY_CPU; TRITONSERVER_MEMORY_CPU_PINNED;
          TRITONSERVER_MEMORY_GPU]).
Proof.
  unfold ToTritonModelControlMode, ToTritonLogFormat, ToTritonMemoryType,
    ToMemoryType.
  repeat split; intros Hx.
  all: try (repeat case_match; try done;
            repeat match goal with
              | E : (_ =? _) = true |- _ => apply Z.eqb_eq in E; subst
              end; by find_event).
  all: rewrite ?elem_of_cons, elem_of_nil in Hx; destruct_or?; try done;
         subst; rewrite ?Z.eqb_refl; repeat case_match; done.
Qed.

(** X2. The round trip the other way: a native memory type mapped to the
    wrapper's and back is itself, both calls succeeding. *)
Theorem native_memory_type_round_trip (native : Z)
    (wrapper_cell native_cell : Z) :
  native ∈ [TRITONSERVER_MEMORY_CPU; TRITONSERVER_MEMORY_CPU_PINNED;
            TRITONSERVER_MEMORY_GPU] →
  let there := ToMemoryType wrapper_cell native in
  let back := ToTritonMemoryType native_cell there.2 in
  IsOk there.1 = true ∧ IsOk back.1 = true ∧ back.2 = native.
Proof.
  intros Hnative.
  destruct native_memory_types_distinct as (Hcp & Hcg & Hpg).
  unfold ToTritonMemoryType, ToMemoryType.
  rewrite ?elem_of_cons, elem_of_nil in Hnative.
  destruct Hnative as [->|[->|[->|[]]]]; rewrite ?Z.eqb_refl;
    repeat case_match; cbn; try done;
    repeat match goal with
      | E : (_ =? _) = true |- _ => apply Z.eqb_eq in E
      end; congruence.
Qed.

(** X3. When the native invalid type is none of the fourteen native data
    types, the sentinel test is exact: [ToTritonDataType] yields
    [TRITONSERVER_TYPE_INVALID] exactly for the strings that are not a
    recognized token, and one of the fourteen types for every token. *)
Theorem ToTritonDataType_sentinel_is_exact (dtype : Z) (s : string) :
  TRITONSERVER_TYPE_INVALID ∉ data_type_spellings.*2 →
  ((ToTritonDataType dtype s).2 = TRITONSERVER_TYPE_INVALID ↔
     s ∉ data_type_tokens) ∧
  (s ∈ data_type_tokens →
     (ToTritonDataType dtype s).2 ∈ data_type_spellings.*2).
Proof.
  intros Hinvalid. split; [split|].
  - intros Hresult Hs. apply Hinvalid. rewrite <- Hresult.
    by apply ToTritonDataType_token.
  - intros Hs. by rewrite ToTritonDataType_not_a_token.
  - apply ToTritonDataType_token.
Qed.

(** X4. [MemoryTypeString] gives the placeholder ["<invalid>"] exactly for
    the values that [ToTritonMemoryType] rejects, and different supported
    memory types never share a name. *)
Theorem MemoryTypeString_names_supported_types (cell m : Z) :
  (MemoryTypeString m = "<invalid>" ↔
     IsOk (ToTritonMemoryType cell m).1 = false) ∧
  (∀ m', MemoryTypeString m = MemoryTypeString m' →
         MemoryTypeString m ≠ "<invalid>" → m = m').
Proof.
  unfold MemoryTypeString, ToTritonMemoryType. split.
  - repeat case_match; cbn; split; done.
  - intros m'. repeat case_match; try done;
      repeat match goal with
        | E : (_ =? _) = true |- _ => apply Z.eqb_eq in E
        end; congruence.
Qed.

End MoreTranslatorFacts.

Lemma native_memory_type_round_trip_witness :
  (2 ∈ [TRITONSERVER_MEMORY_CPU (NativeHeaders := tritonserver_h);
        TRITONSERVER_MEMORY_CPU_PINNED (NativeHeaders := tritonserver_h);
        TRITONSERVER_MEMORY_GPU (NativeHeaders := tritonserver_h)]) ∧
  (ToTritonMemoryType (H := tritonserver_h) 9
     (ToMemoryType (H := tritonserver_h) 8 2).2).2 = 2.
Proof.
  assert (Hin : 2 ∈ [TRITONSERVER_MEMORY_CPU (NativeHeaders := tritonserver_h);
                     TRITONSERVER_MEMORY_CPU_PINNED (NativeHeaders := tritonserver_h);
                     TRITONSERVER_MEMORY_GPU (NativeHeaders := tritonserver_h)]).
  { apply (bool_decide_unpack _). vm_compute. exact I. }
  split; [exact Hin|].
  exact (proj2 (proj2 (@native_memory_type_round_trip tritonserver_h 2 8 9 Hin))).
Defined.

Lemma ToTritonDataType_sentinel_is_exact_witness :
  (TRITONSERVER_TYPE_INVALID (NativeHeaders := tritonserver_h)
   ∉ (data_type_spellings (H := tritonserver_h)).*2) ∧
  ((ToTritonDataType (H := tritonserver_h) 0 "FP32").2
   ∈ (data_type_spellings (H := tritonserver_h)).*2).
Proof.
  assert (Hinvalid : TRITONSERVER_TYPE_INVALID (NativeHeaders := tritonserver_h)
                     ∉ (data_type_spellings (H := tritonserver_h)).*2).
  { apply (bool_decide_unpack _). vm_compute. exact I. }
  split; [exact Hinvalid|].
  apply (proj2 (@ToTritonDataType_sentinel_is_exact tritonserver_h 0 "FP32"
                  Hinvalid)).
  apply (bool_decide_unpack _). vm_compute. exact I.
Defined.

(** ** More on [ResponseAlloc] *)

(** The boolean tests of a path, as equations. *)
Ltac path_facts :=
  repeat match goal with
    | Hb : negb _ = true |- _ => apply negb_true_iff in Hb
    | Hb : negb _ = false |- _ => apply negb_false_iff in Hb
    | Hb : (_ =? _) = true |- _ => apply Z.eqb_eq in Hb
    | Hb : (_ =? _) = false |- _ => apply Z.eqb_neq in Hb
    | Hb : _ && _ = true |- _ => apply andb_true_iff in Hb; destruct Hb
    end.

Lemma log_call_is_no_allocator_filter evs :
  Forall (λ e, is_log_call e = true) evs →
  filter (λ e, is_allocator_call e = true) evs = [].
Proof.
  induction 1 as [|e evs He _ IH]; [done|].
  rewrite filter_cons, IH. destruct e; try done.
Qed.

Section MoreResponseAllocFacts.
Context `{NativeHeaders}.
Variable TRITON_ENABLE_GPU : bool.
Variable rt : Runtime.

(** X5. The memory type that [ResponseAlloc] reports: the preferred one for
    a zero-byte request, whatever it is, and for a device type the build has
    a [case] for; [TRITONSERVER_MEMORY_CPU] otherwise.  So for a non-zero
    request the reported type, also beside an error, is always one that
    [ResponseRelease] has a [case] for. *)
Theorem ResponseAlloc_reported_memory_type (allocator : Z)
    (tensor_name : string) (byte_size : Z)
    (preferred_memory_type preferred_memory_type_id userp : Z)
    (out : AllocOut) (w : World) :
  ∃ r out' w',
    ResponseAlloc TRITON_ENABLE_GPU rt allocator tensor_name byte_size
      preferred_memory_type preferred_memory_type_id userp out w
    = Normal (r, out') w' ∧
    actual_memory_type out' =
      (if (byte_size =? 0) ||
          has_device_case TRITON_ENABLE_GPU preferred_memory_type
       then preferred_memory_type else TRITONSERVER_MEMORY_CPU) ∧
    (byte_size ≠ 0 →
       actual_memory_type out' = TRITONSERVER_MEMORY_CPU ∨
       has_device_case TRITON_ENABLE_GPU (actual_memory_type out') = true).
Proof.
  cut (runs (ResponseAlloc TRITON_ENABLE_GPU rt allocator tensor_name
               byte_size preferred_memory_type preferred_memory_type_id
               userp out) w
         (λ a _ _,
            actual_memory_type a.2 =
              (if (byte_size =? 0) ||
                  has_device_case TRITON_ENABLE_GPU preferred_memory_type
               then preferred_memory_type else TRITONSERVER_MEMORY_CPU))).
  { intros ([r out'] & w' & evs & Hrun & _ & Hty). cbn in Hty.
    exists r, out', w'. split; [done|]. split; [done|].
    intros Hsize. apply Z.eqb_neq in Hsize. rewrite Hty, Hsize. cbn.
    destruct (has_device_case _ _) eqn:Hcase; auto. }
  unfold ResponseAlloc, publish_allocation, has_device_case.
  destruct (byte_size =? 0) eqn:Hsize; cbn.
  { run_all rt. done. }
  destruct TRITON_ENABLE_GPU; cbn.
  - destruct (preferred_memory_type =? TRITONSERVER_MEMORY_CPU_PINNED)
      eqn:Hpinned; cbn; [run_all rt; done|].
    destruct (preferred_memory_type =? TRITONSERVER_MEMORY_GPU)
      eqn:Hgpu; cbn; run_all rt; done.
  - run_all rt; done.
Qed.

(** X6. For a non-zero request [ResponseAlloc] calls an allocator at most
    once, for exactly [byte_size] bytes, and the allocator is the one of the
    memory type it reports: [malloc] for CPU, [cudaHostAlloc] with
    [cudaHostAllocPortable] for pinned memory, [cudaMalloc] for GPU memory.
    It gives nothing back: no [free], [cudaFreeHost], [cudaFree] or
    [delete], on any path. *)
Theorem ResponseAlloc_allocator_discipline (allocator : Z)
    (tensor_name : string) (byte_size : Z)
    (preferred_memory_type preferred_memory_type_id userp : Z)
    (out : AllocOut) (w : World) :
  byte_size ≠ 0 →
  ∃ r out' w' evs,
    ResponseAlloc TRITON_ENABLE_GPU rt allocator tensor_name byte_size
      preferred_memory_type preferred_memory_type_id userp out w
    = Normal (r, out') w' ∧
    trace w' = trace w ++ evs ∧
    (length (filter (λ e, is_allocator_call e = true) evs) ≤ 1)%nat ∧
    Forall (λ e, is_deallocator_call e = false ∧ is_string_delete e = false)
      evs ∧
    (∀ e, e ∈ evs → is_allocator_call e = true →
       (∃ p, e = ev_malloc byte_size p ∧
             actual_memory_type out' = TRITONSERVER_MEMORY_CPU) ∨
       (∃ err p, e = ev_cudaHostAlloc byte_size cudaHostAllocPortable err p ∧
                 actual_memory_type out' = TRITONSERVER_MEMORY_CPU_PINNED) ∨
       (∃ err p, e = ev_cudaMalloc byte_size err p ∧
                 actual_memory_type out' = TRITONSERVER_MEMORY_GPU)).
Proof.
  intros Hsize.
  cut (runs (ResponseAlloc TRITON_ENABLE_GPU rt allocator tensor_name
               byte_size preferred_memory_type preferred_memory_type_id
               userp out) w
         (λ a _ evs,
            (length (filter (λ e, is_allocator_call e = true) evs) ≤ 1)%nat ∧
            Forall (λ e, is_deallocator_call e = false ∧
                         is_string_delete e = false) evs ∧
            (∀ e, e ∈ evs → is_allocator_call e = true →
               (∃ p, e = ev_malloc byte_size p ∧
                     actual_memory_type a.2 = TRITONSERVER_MEMORY_CPU) ∨
               (∃ err p,
                  e = ev_cudaHostAlloc byte_size cudaHostAllocPortable err p ∧
                  actual_memory_type a.2 = TRITONSERVER_MEMORY_CPU_PINNED) ∨
               (∃ err p, e = ev_cudaMalloc byte_size err p ∧
                         actual_memory_type a.2 = TRITONSERVER_MEMORY_GPU)))).
  { intros ([r out'] & w' & evs & Hrun & Htrace & HQ).
    by exists r, out', w', evs. }
  unfold ResponseAlloc, publish_allocation.
  apply Z.eqb_neq in Hsize. rewrite Hsize.
  run_all rt; cbn -[filter]; rewrite ?app_nil_r.
  all: repeat match goal with x := _ |- _ => clearbody x end.
  all: path_facts.
  all: split; [|split].
  all: try (repeat first
              [ rewrite filter_cons_True by done
              | rewrite filter_cons_False by done ];
            repeat match goal with
              | Hl : Forall (λ e, is_log_call e = true) ?evs |- _ =>
                  rewrite (log_call_is_no_allocator_filter _ Hl)
              end; rewrite ?filter_nil; cbn; lia).
  all: try (repeat (apply Forall_cons; split; [done|]);
            first [ apply Forall_nil_2
                  | eapply Forall_impl; [eassumption|]; by intros [] ]).
  all: try (intros e Hin Hcall; rewrite ?elem_of_cons, ?elem_of_nil in Hin;
         destruct_or?; subst; try done; try alloc_log_absurd; by eauto 7).
Qed.

End MoreResponseAllocFacts.

(** ** More on [ResponseRelease] *)

Section MoreExternalFacts.
Context `{NativeHeaders} (rt : Runtime).

(** Logging starts with the message asked for. *)
Lemma runs_LOG_MESSAGE_first LEVEL MSG w Q :
  (∀ evs, Forall (λ e, is_log_call e = true) evs →
          Q tt (extend (ev_LogMessage LEVEL MSG :: evs) w)
            (ev_LogMessage LEVEL MSG :: evs)) →
  runs (LOG_MESSAGE rt LEVEL MSG) w Q.
Proof.
  intros HQ.
  unfold LOG_MESSAGE, LOG_IF_ERROR, IGNORE_ERROR, TRITONSERVER_LogMessage,
    TRITONSERVER_ErrorDelete, emit, bind, ret, runs.
  repeat case_match; simplify_eq; rewrite ?record_extend, ?extend_extend;
    (eexists _, _, _; split; [reflexivity|]; split; [reflexivity|]);
    apply HQ; by repeat constructor.
Qed.

End MoreExternalFacts.

Section MoreResponseReleaseFacts.
Context `{NativeHeaders}.
Variable TRITON_ENABLE_GPU : bool.
Variable rt : Runtime.

Lemma runs_free_by_memory_type_calls buffer memory_type memory_type_id w Q :
  (∀ evs,
     release_switch_calls TRITON_ENABLE_GPU buffer memory_type memory_type_id
       evs →
     Q tt (extend evs w) evs) →
  runs (free_by_memory_type TRITON_ENABLE_GPU rt buffer memory_type
          memory_type_id) w Q.
Proof.
  intros HQ.
  unfold free_by_memory_type, report_cuda_free_error, free, cerr.
  run_all rt; cbn; rewrite ?record_extend, ?extend_extend; cbn.
  all: repeat match goal with x := _ |- _ => clearbody x end.
  all: repeat match goal with
         | Hb : negb _ = true |- _ => apply negb_true_iff in Hb
         | Hb : negb _ = false |- _ => apply negb_false_iff in Hb
         | Hb : _ && _ = true |- _ => apply andb_true_iff in Hb; destruct Hb
         end.
  all: apply HQ; unfold release_switch_calls, has_device_case,
         cuda_free_failed_line, unexpected_buffer_line.
  all: destruct TRITON_ENABLE_GPU; try done; cbn in *.
  all: repeat match goal with
         | Hb : (_ =? _) = _ |- _ => rewrite Hb
         end; cbn.
  all: repeat match goal with
         | Hb : (_ =? _) = true |- _ => apply Z.eqb_eq in Hb
         | Hb : (_ =? _) = false |- _ => apply Z.eqb_neq in Hb
         end.
  all: first
         [ by left
         | by right; left
         | right; right; split; [done|]; split; [done|];
           match goal with
           | |- context [ev_cudaSetDevice _ ?e :: _] => exists e
           end; first
             [ by left
             | right; split; [done|];
               match goal with
               | |- context [ev_cudaFreeHost _ ?e :: _] => exists e
               | |- context [ev_cudaFree _ ?e :: _] => exists e
               end;
               match goal with
               | Hb : ?e = cudaSuccess |- context [?e =? _] =>
                   rewrite (proj2 (Z.eqb_eq _ _) Hb)
               | Hb : ?e ≠ cudaSuccess |- context [?e =? _] =>
                   rewrite (proj2 (Z.eqb_neq _ _) Hb)
               end; reflexivity ] ].
Qed.

(** Every call of [ResponseRelease] on a null or live tag, in order: the
    placeholder if the tag is null, the log line naming the tag, the calls
    of the [switch], the deletion of the tag. *)
Lemma ResponseRelease_calls (allocator buffer tag : Z)
    (byte_size memory_type memory_type_id : Z) (w : World) :
  tag = nullptr ∨ is_Some (strings w !! tag) →
  let name := if tag =? nullptr then new_returns rt w else tag in
  let pre :=
    if tag =? nullptr then [ev_new_string "<unknown>" name] else [] in
  let content :=
    if tag =? nullptr then "<unknown>" else default "" (strings w !! tag) in
  ∃ w' logs sw,
    ResponseRelease TRITON_ENABLE_GPU rt allocator buffer tag byte_size
      memory_type memory_type_id w = Normal None w' ∧
    trace w' =
      trace w ++ pre ++
      ev_LogMessage TRITONSERVER_LOG_VERBOSE
        ("Releasing buffer " +:+ pointer_to_string buffer +:+ " of size " +:+
         to_string byte_size +:+ " in " +:+
         TRITONSERVER_MemoryTypeString memory_type +:+ " for result '" +:+
         content) :: logs ++ sw ++ [ev_delete_string name] ∧
    strings w' = delete name (strings w) ∧
    Forall (λ e, is_log_call e = true) logs ∧
    release_switch_calls TRITON_ENABLE_GPU buffer memory_type memory_type_id
      sw.
Proof.
  intros Htag name pre content.
  cut (runs (ResponseRelease TRITON_ENABLE_GPU rt allocator buffer tag
               byte_size memory_type memory_type_id) w
         (λ r w' evs,
            r = None ∧ strings w' = delete name (strings w) ∧
            ∃ logs sw,
              evs = pre ++
                ev_LogMessage TRITONSERVER_LOG_VERBOSE
                  ("Releasing buffer " +:+ pointer_to_string buffer +:+
                   " of size " +:+ to_string byte_size +:+ " in " +:+
                   TRITONSERVER_MemoryTypeString memory_type +:+
                   " for result '" +:+ content)
                :: logs ++ sw ++ [ev_delete_string name] ∧
              Forall (λ e, is_log_call e = true) logs ∧
              release_switch_calls TRITON_ENABLE_GPU buffer memory_type
                memory_type_id sw)).
  { intros (r & w' & evs & Hrun & Htrace & -> & Hstrings & logs & sw & ->
            & Hlogs & Hsw).
    by exists w', logs, sw. }
  unfold ResponseRelease. subst name pre content.
  destruct (Z.eqb_spec tag nullptr) as [Hnull|Hlive]; cbn.
  - destruct (new_returns_fresh rt w) as [Hp Hfresh].
    apply runs_bind, runs_new_string. intros p. subst p.
    apply runs_bind. eapply runs_read_string; [apply lookup_insert_eq|].
    apply runs_bind, runs_LOG_MESSAGE_first. intros logs Hlogs.
    apply runs_bind, runs_free_by_memory_type_calls. intros sw Hsw.
    apply runs_bind.
    eapply runs_delete_string; [exact Hp|apply lookup_insert_eq|].
    apply runs_ret. cbn. rewrite ?app_nil_r.
    split; [done|]. split; [by rewrite delete_insert_eq|].
    by exists logs, sw.
  - destruct Htag as [?|[s Hs]]; [done|]. rewrite Hs. cbn.
    apply runs_bind, runs_ret.
    apply runs_bind. eapply runs_read_string; [exact Hs|].
    apply runs_bind, runs_LOG_MESSAGE_first. intros logs Hlogs.
    apply runs_bind, runs_free_by_memory_type_calls. intros sw Hsw.
    apply runs_bind.
    eapply runs_delete_string; [exact Hlive|exact Hs|].
    apply runs_ret. cbn. rewrite ?app_nil_r.
    split; [done|]. split; [done|].
    by exists logs, sw.
Qed.

Lemma log_call_is_no_deallocator_call evs :
  Forall (λ e, is_log_call e = true) evs →
  Forall (λ e, is_deallocator_call e = false ∧ is_allocator_call e = false)
    evs.
Proof. intros Hlog. eapply Forall_impl; [exact Hlog|]. by intros []. Qed.

(** What the calls of the [switch] give back. *)
Lemma release_switch_calls_deallocators buffer memory_type memory_type_id sw :
  release_switch_calls TRITON_ENABLE_GPU buffer memory_type memory_type_id
    sw →
  (length (filter (λ e, is_deallocator_call e = true) sw) ≤ 1)%nat ∧
  Forall (λ e, is_allocator_call e = false ∧ is_string_delete e = false ∧
               is_new_string e = false) sw ∧
  (∀ e, e ∈ sw → is_deallocator_call e = true →
     (e = ev_free buffer ∧ memory_type = TRITONSERVER_MEMORY_CPU) ∨
     (∃ err, e = ev_cudaFreeHost buffer err ∧
             memory_type = TRITONSERVER_MEMORY_CPU_PINNED) ∨
     (∃ err, e = ev_cudaFree buffer err ∧
             memory_type = TRITONSERVER_MEMORY_GPU)) ∧
  (∀ e, e ∈ sw → is_deallocator_call e = true →
     memory_type = TRITONSERVER_MEMORY_CPU ∨
     ev_cudaSetDevice (int_of_int64_t memory_type_id) cudaSuccess ∈ sw) ∧
  (memory_type = TRITONSERVER_MEMORY_CPU → sw = [ev_free buffer]) ∧
  (memory_type ≠ TRITONSERVER_MEMORY_CPU →
   has_device_case TRITON_ENABLE_GPU memory_type = false →
     sw = [ev_cerr unexpected_buffer_line]) ∧
  (∀ dev err, ev_cudaSetDevice dev err ∈ sw → err ≠ cudaSuccess →
     sw = [ev_cudaSetDevice (int_of_int64_t memory_type_id) err;
           ev_cerr (cuda_free_failed_line buffer err)]) ∧
  (has_device_case TRITON_ENABLE_GPU memory_type = true → TRITON_ENABLE_GPU = true) ∧
  (ev_cerr unexpected_buffer_line ∈ sw →
     memory_type ≠ TRITONSERVER_MEMORY_CPU ∧
     has_device_case TRITON_ENABLE_GPU memory_type = false).
Proof.
  intros Hsw.
  assert (Hline : ∀ e, cuda_free_failed_line buffer e
                       ≠ unexpected_buffer_line).
  { intros e Heq. unfold cuda_free_failed_line, unexpected_buffer_line in Heq.
    simplify_eq. }
  assert (Hgpu : has_device_case TRITON_ENABLE_GPU memory_type = true →
                 TRITON_ENABLE_GPU = true).
  { unfold has_device_case. by destruct TRITON_ENABLE_GPU. }
  assert (Hkind :
    has_device_case TRITON_ENABLE_GPU memory_type = true →
    (memory_type =? TRITONSERVER_MEMORY_CPU_PINNED) = false →
    memory_type = TRITONSERVER_MEMORY_GPU).
  { intros Hcase Hnp. unfold has_device_case in Hcase.
    rewrite (Hgpu Hcase), Hnp in Hcase. cbn in Hcase. by apply Z.eqb_eq. }
  destruct Hsw as [[Hcpu ->]|[(Hne & Hcase & ->)|(Hne & Hcase & err & Hdev)]];
    [| |destruct Hdev as [[Herr ->]|[-> [err2 ->]]];
        [|destruct (Z.eqb_spec memory_type TRITONSERVER_MEMORY_CPU_PINNED)
            as [Hpinned|Hnotpinned];
          destruct (Z.eqb_spec err2 cudaSuccess) as [Herr2|Herr2]]].
  all: split_and!; try done.
  all: try (cbn; lia).
  all: try (by repeat constructor).
  all: try (intros; congruence).
  all: try (intros e He Hd; rewrite ?elem_of_cons, ?elem_of_nil in He;
            destruct_or?; subst e; try done;
            first [ by left
                  | by right; left; eexists
                  | by right; right; eexists; split; [|apply Hkind]
                  | by right; apply list_elem_of_here ]).
  all: try (intros dev err' He Hne'; rewrite ?elem_of_cons, ?elem_of_nil in He;
            destruct_or?; by simplify_eq).
  all: try (intros He; rewrite ?elem_of_cons, ?elem_of_nil in He;
            destruct_or?; simplify_eq;
            match goal with Hx : _ = unexpected_buffer_line |- _ =>
              by apply Hline in Hx end).
Qed.

Lemma no_deallocator_filter evs :
  Forall (λ e, is_deallocator_call e = false) evs →
  filter (λ e, is_deallocator_call e = true) evs = [].
Proof.
  induction 1 as [|e evs He _ IH]; [done|].
  rewrite filter_cons_False, IH; [done|congruence].
Qed.

(** Where an event of [ResponseRelease] that is neither the placeholder,
    a log call nor the deletion of the tag comes from: the [switch]. *)
Lemma release_event_of_switch e pre line logs sw name :
  e ∈ pre ++ ev_LogMessage TRITONSERVER_LOG_VERBOSE line :: logs ++ sw ++
      [ev_delete_string name] →
  pre = [] ∨ pre = [ev_new_string "<unknown>" name] →
  Forall (λ e, is_log_call e = true) logs →
  is_log_call e = false → is_string_delete e = false →
  is_new_string e = false →
  e ∈ sw.
Proof.
  intros He Hpre Hlogs Hlog Hdel Hnew.
  rewrite elem_of_app, elem_of_cons, !elem_of_app in He.
  destruct He as [He|[->|[He|[He|He]]]]; try done.
  - destruct Hpre as [->| ->].
    + by apply elem_of_nil in He.
    + apply list_elem_of_singleton in He as ->. done.
  - pose proof (log_call_elem _ _ Hlogs He). congruence.
  - apply list_elem_of_singleton in He as ->. done.
Qed.

(** X7. Called with a null or live tag, [ResponseRelease] gives the buffer
    back at most once, always the buffer it was handed, with the
    deallocator of the memory type it was told: [free] for CPU memory,
    [cudaFreeHost] for pinned memory, [cudaFree] for GPU memory, the CUDA
    ones only after [cudaSetDevice], called with the memory type id
    converted to [int], succeeded.  A CPU buffer is always freed.  It never
    allocates. *)
Theorem ResponseRelease_deallocator_discipline (allocator buffer tag : Z)
    (byte_size memory_type memory_type_id : Z) (w : World) :
  tag = nullptr ∨ is_Some (strings w !! tag) →
  ∃ w' evs,
    ResponseRelease TRITON_ENABLE_GPU rt allocator buffer tag byte_size
      memory_type memory_type_id w = Normal None w' ∧
    trace w' = trace w ++ evs ∧
    (length (filter (λ e, is_deallocator_call e = true) evs) ≤ 1)%nat ∧
    Forall (λ e, is_allocator_call e = false) evs ∧
    (∀ e, e ∈ evs → is_deallocator_call e = true →
       (e = ev_free buffer ∧ memory_type = TRITONSERVER_MEMORY_CPU) ∨
       (∃ err, e = ev_cudaFreeHost buffer err ∧
               memory_type = TRITONSERVER_MEMORY_CPU_PINNED ∧
               ev_cudaSetDevice (int_of_int64_t memory_type_id) cudaSuccess
               ∈ evs) ∨
       (∃ err, e = ev_cudaFree buffer err ∧
               memory_type = TRITONSERVER_MEMORY_GPU ∧
               ev_cudaSetDevice (int_of_int64_t memory_type_id) cudaSuccess
               ∈ evs)) ∧
    (memory_type = TRITONSERVER_MEMORY_CPU → ev_free buffer ∈ evs).
Proof.
  intros Htag.
  destruct (ResponseRelease_calls allocator buffer tag byte_size memory_type
              memory_type_id w Htag)
    as (w' & logs & sw & Hrun & Htrace & _ & Hlogs & Hsw).
  destruct (release_switch_calls_deallocators _ _ _ _ Hsw)
    as (Hlen & Hquiet & Hkind & Hdev & Hcpu & _ & _ & _ & _).
  eexists w', _. split; [exact Hrun|]. split; [exact Htrace|].
  set (name := if tag =? nullptr then new_returns rt w else tag) in *.
  assert (Hpre :
    (if tag =? nullptr then [ev_new_string "<unknown>" name] else []) = [] ∨
    (if tag =? nullptr then [ev_new_string "<unknown>" name] else [])
    = [ev_new_string "<unknown>" name]).
  { destruct (tag =? nullptr); auto. }
  split_and!.
  - rewrite filter_app, filter_cons_False, !filter_app by done.
    rewrite (no_deallocator_filter logs), filter_cons_False, filter_nil,
      app_nil_r by
      first [ done
            | eapply Forall_impl;
                [apply log_call_is_no_deallocator_call, Hlogs|];
                by intros e [-> _] ].
    rewrite no_deallocator_filter
      by (destruct (tag =? nullptr); by repeat constructor).
    exact Hlen.
  - rewrite Forall_app, Forall_cons, !Forall_app, Forall_singleton.
    split_and!; try done.
    + by destruct (tag =? nullptr); repeat constructor.
    + eapply Forall_impl;
        [apply log_call_is_no_deallocator_call, Hlogs|]. by intros e [_ ?].
    + eapply Forall_impl; [exact Hquiet|]. by intros e [? _].
  - intros e He Hd.
    assert (Hin : e ∈ sw).
    { eapply release_event_of_switch; [exact He|exact Hpre|exact Hlogs|..];
        by destruct e. }
    assert (Hsub :
      ev_cudaSetDevice (int_of_int64_t memory_type_id) cudaSuccess ∈ sw →
      ev_cudaSetDevice (int_of_int64_t memory_type_id) cudaSuccess
      ∈ (if tag =? nullptr then [ev_new_string "<unknown>" name] else []) ++
          ev_LogMessage TRITONSERVER_LOG_VERBOSE
            ("Releasing buffer " +:+ pointer_to_string buffer +:+
             " of size " +:+ to_string byte_size +:+ " in " +:+
             TRITONSERVER_MemoryTypeString memory_type +:+
             " for result '" +:+
             (if tag =? nullptr then "<unknown>"
              else default "" (strings w !! tag)))
          :: logs ++ sw ++ [ev_delete_string name]).
    { intros Hx. rewrite elem_of_app, elem_of_cons, !elem_of_app. auto. }
    destruct (Hkind e Hin Hd) as [[-> Hty]|[[err [-> Hty]]|[err [-> Hty]]]].
    + by left.
    + right; left. exists err. split_and!; try done.
      destruct (Hdev _ Hin Hd) as [Hc|Hc]; [|by apply Hsub].
      destruct native_memory_types_distinct as (? & ? & ?). congruence.
    + right; right. exists err. split_and!; try done.
      destruct (Hdev _ Hin Hd) as [Hc|Hc]; [|by apply Hsub].
      destruct native_memory_types_distinct as (? & ? & ?). congruence.
  - intros Hty. rewrite (Hcpu Hty).
    rewrite elem_of_app, elem_of_cons, !elem_of_app.
    right; right; right; left. apply list_elem_of_here.
Qed.

(** X8. When the memory type has no [case] in this build, or when
    [cudaSetDevice] fails, [ResponseRelease] gives the buffer back to
    nobody: it calls no deallocator, writes a line on [std::cerr], deletes
    the tag all the same and returns success. *)
Theorem ResponseRelease_leaves_the_buffer (allocator buffer tag : Z)
    (byte_size memory_type memory_type_id : Z) (w : World) :
  tag = nullptr ∨ is_Some (strings w !! tag) →
  ∃ w' evs,
    ResponseRelease TRITON_ENABLE_GPU rt allocator buffer tag byte_size
      memory_type memory_type_id w = Normal None w' ∧
    trace w' = trace w ++ evs ∧
    ((memory_type ≠ TRITONSERVER_MEMORY_CPU ∧
      has_device_case TRITON_ENABLE_GPU memory_type = false) ∨
     (∃ dev err, ev_cudaSetDevice dev err ∈ evs ∧ err ≠ cudaSuccess) →
     Forall (λ e, is_deallocator_call e = false) evs ∧
     (∃ line, ev_cerr line ∈ evs) ∧
     ev_delete_string (if tag =? nullptr then new_returns rt w else tag)
       ∈ evs).
Proof.
  intros Htag.
  destruct (ResponseRelease_calls allocator buffer tag byte_size memory_type
              memory_type_id w Htag)
    as (w' & logs & sw & Hrun & Htrace & _ & Hlogs & Hsw).
  destruct (release_switch_calls_deallocators _ _ _ _ Hsw)
    as (_ & _ & _ & _ & _ & Hodd & Hfail & _ & _).
  eexists w', _. split; [exact Hrun|]. split; [exact Htrace|].
  set (name := if tag =? nullptr then new_returns rt w else tag) in *.
  assert (Hpre :
    (if tag =? nullptr then [ev_new_string "<unknown>" name] else []) = [] ∨
    (if tag =? nullptr then [ev_new_string "<unknown>" name] else [])
    = [ev_new_string "<unknown>" name]).
  { destruct (tag =? nullptr); auto. }
  intros Hwhy.
  assert (Hshape : ∃ line rest, sw = rest ++ [ev_cerr line] ∧
                     Forall (λ e, is_deallocator_call e = false) rest).
  { destruct Hwhy as [[Hne Hcase]|(dev & err & He & Herr)].
    - rewrite (Hodd Hne Hcase). exists unexpected_buffer_line, [].
      by split.
    - assert (Hin : ev_cudaSetDevice dev err ∈ sw).
      { by eapply release_event_of_switch;
          [exact He|exact Hpre|exact Hlogs|..]. }
      rewrite (Hfail dev err Hin Herr).
      exists (cuda_free_failed_line buffer err),
        [ev_cudaSetDevice (int_of_int64_t memory_type_id) err].
      split; [done|]. by repeat constructor. }
  destruct Hshape as (line & rest & -> & Hrest).
  split_and!.
  - rewrite Forall_app, Forall_cons, !Forall_app, !Forall_singleton.
    split_and!; try done.
    + by destruct (tag =? nullptr); repeat constructor.
    + eapply Forall_impl;
        [apply log_call_is_no_deallocator_call, Hlogs|]. by intros e [? _].
  - exists line. rewrite elem_of_app, elem_of_cons, !elem_of_app.
    right; right; right; left; right. apply list_elem_of_here.
  - rewrite elem_of_app, elem_of_cons, !elem_of_app.
    right; right; right; right. apply list_elem_of_here.
Qed.

End MoreResponseReleaseFacts.




(** ** [ResponseAlloc] and [ResponseRelease] together *)

Section AllocReleaseFacts.
Context `{NativeHeaders}.
Variable TRITON_ENABLE_GPU : bool.
Variable rt : Runtime.

(** What is true once [ResponseAlloc] has left a new tag behind. *)
Lemma ResponseAlloc_with_new_tag (allocator : Z) (tensor_name : string)
    (byte_size : Z) (preferred_memory_type preferred_memory_type_id userp : Z)
    (out : AllocOut) (w : World) r out' w' :
  ResponseAlloc TRITON_ENABLE_GPU rt allocator tensor_name byte_size
    preferred_memory_type preferred_memory_type_id userp out w
  = Normal (r, out') w' →
  strings w !! buffer_userp out' = None →
  is_Some (strings w' !! buffer_userp out') →
  r = None ∧
  buffer out' ≠ nullptr ∧ buffer_userp out' ≠ nullptr ∧
  strings w' = <[buffer_userp out' := tensor_name]> (strings w) ∧
  ∃ evs,
    trace w' = trace w ++ evs ∧
    Forall (λ e, is_deallocator_call e = false) evs ∧
    ((actual_memory_type out' = TRITONSERVER_MEMORY_CPU ∧
      ev_malloc byte_size (buffer out') ∈ evs) ∨
     (has_device_case TRITON_ENABLE_GPU (actual_memory_type out') = true ∧
      actual_memory_type out' = TRITONSERVER_MEMORY_CPU_PINNED ∧
      ev_cudaHostAlloc byte_size cudaHostAllocPortable cudaSuccess
        (buffer out') ∈ evs) ∨
     (has_device_case TRITON_ENABLE_GPU (actual_memory_type out') = true ∧
      actual_memory_type out' = TRITONSERVER_MEMORY_GPU ∧
      ev_cudaMalloc byte_size cudaSuccess (buffer out') ∈ evs)).
Proof.
  intros Hrun.
  cut (runs (ResponseAlloc TRITON_ENABLE_GPU rt allocator tensor_name
               byte_size preferred_memory_type preferred_memory_type_id
               userp out) w
         (λ a w1 evs,
            strings w !! buffer_userp a.2 = None →
            is_Some (strings w1 !! buffer_userp a.2) →
            a.1 = None ∧
            buffer a.2 ≠ nullptr ∧ buffer_userp a.2 ≠ nullptr ∧
            strings w1 = <[buffer_userp a.2 := tensor_name]> (strings w) ∧
            Forall (λ e, is_deallocator_call e = false) evs ∧
            ((actual_memory_type a.2 = TRITONSERVER_MEMORY_CPU ∧
              ev_malloc byte_size (buffer a.2) ∈ evs) ∨
             (has_device_case TRITON_ENABLE_GPU (actual_memory_type a.2)
              = true ∧
              actual_memory_type a.2 = TRITONSERVER_MEMORY_CPU_PINNED ∧
              ev_cudaHostAlloc byte_size cudaHostAllocPortable cudaSuccess
                (buffer a.2) ∈ evs) ∨
             (has_device_case TRITON_ENABLE_GPU (actual_memory_type a.2)
              = true ∧
              actual_memory_type a.2 = TRITONSERVER_MEMORY_GPU ∧
              ev_cudaMalloc byte_size cudaSuccess (buffer a.2) ∈ evs)))).
  { intros (a & w1 & evs & Hrun' & Htrace & HQ) Hnew Hlive.
    rewrite Hrun in Hrun'. injection Hrun' as <- <-. cbn in HQ.
    destruct (HQ Hnew Hlive) as (? & ? & ? & ? & ? & ?).
    split_and!; try done. by exists evs. }
  clear Hrun. unfold ResponseAlloc, publish_allocation, has_device_case.
  run_all rt; cbn; rewrite ?app_nil_r.
  all: repeat match goal with
         | p := new_returns rt ?w0 |- _ =>
             let Hp := fresh "Hp" in
             pose proof (new_returns_fresh rt w0) as Hp;
             fold p in Hp; cbn in Hp; clearbody p
         | x := _ |- _ => clearbody x
         end.
  all: intros Hnew Hlive.
  all: try (rewrite Hnew in Hlive; by destruct Hlive).
  all: path_facts; destruct Hp as [Hp _]; cbn in *.
  all: split_and!; try done.
  all: try (repeat (apply Forall_cons; split; [done|]);
            eapply Forall_impl;
              [apply log_call_is_no_deallocator_call; eassumption|];
            by intros e [? _]).
  all: first
         [ left; split; [done|apply list_elem_of_here]
         | right; left; split_and!;
             [ match goal with
               | Hg : TRITON_ENABLE_GPU = true,
                 Ht : ?ty = _ |- context [?ty =? _] =>
                   by rewrite Hg, Ht, Z.eqb_refl, ?orb_true_r
               end
             | done
             | match goal with Hs : _ = cudaSuccess |- _ => rewrite <- Hs end;
               apply list_elem_of_further, list_elem_of_here ]
         | right; right; split_and!;
             [ match goal with
               | Hg : TRITON_ENABLE_GPU = true,
                 Ht : ?ty = _ |- context [?ty =? _] =>
                   by rewrite Hg, Ht, Z.eqb_refl, ?orb_true_r
               end
             | done
             | match goal with Hs : _ = cudaSuccess |- _ => rewrite <- Hs end;
               apply list_elem_of_further, list_elem_of_here ] ].
Qed.

(** X9. Allocation and release pair up.  Once [ResponseAlloc] has left a
    new tag behind, releasing the buffer, tag, memory type and id it
    reported succeeds and deletes that tag, so that the tags are again those
    from before the allocation; the release logs the tensor name; it never
    meets a memory type without a [case]; and whatever deallocator it calls
    is the counterpart of the allocator that produced the buffer ([free]
    for [malloc], [cudaFreeHost] for [cudaHostAlloc], [cudaFree] for
    [cudaMalloc]), a CPU buffer being always freed. *)
Theorem ResponseRelease_after_ResponseAlloc (allocator : Z)
    (tensor_name : string) (byte_size : Z)
    (preferred_memory_type preferred_memory_type_id userp : Z)
    (out : AllocOut) (w : World) r out' w1 (allocator' byte_size' : Z) :
  ResponseAlloc TRITON_ENABLE_GPU rt allocator tensor_name byte_size
    preferred_memory_type preferred_memory_type_id userp out w
  = Normal (r, out') w1 →
  strings w !! buffer_userp out' = None →
  is_Some (strings w1 !! buffer_userp out') →
  ∃ w2 evs1 evs2,
    ResponseRelease TRITON_ENABLE_GPU rt allocator' (buffer out')
      (buffer_userp out') byte_size' (actual_memory_type out')
      (actual_memory_type_id out') w1 = Normal None w2 ∧
    trace w1 = trace w ++ evs1 ∧
    trace w2 = trace w1 ++ evs2 ∧
    strings w2 = strings w ∧
    ev_LogMessage TRITONSERVER_LOG_VERBOSE
      ("Releasing buffer " +:+ pointer_to_string (buffer out') +:+
       " of size " +:+ to_string byte_size' +:+ " in " +:+
       TRITONSERVER_MemoryTypeString (actual_memory_type out') +:+
       " for result '" +:+ tensor_name) ∈ evs2 ∧
    (ev_cerr unexpected_buffer_line ∉ evs2) ∧
    Forall (λ e, is_deallocator_call e = false) evs1 ∧
    (∀ e, e ∈ evs2 → is_deallocator_call e = true →
       (e = ev_free (buffer out') ∧
        ev_malloc byte_size (buffer out') ∈ evs1) ∨
       (∃ err, e = ev_cudaFreeHost (buffer out') err ∧
               ev_cudaHostAlloc byte_size cudaHostAllocPortable cudaSuccess
                 (buffer out') ∈ evs1) ∨
       (∃ err, e = ev_cudaFree (buffer out') err ∧
               ev_cudaMalloc byte_size cudaSuccess (buffer out') ∈ evs1)) ∧
    (actual_memory_type out' = TRITONSERVER_MEMORY_CPU →
       ev_free (buffer out') ∈ evs2).
Proof.
  intros Hrun Hnew Hlive.
  destruct (ResponseAlloc_with_new_tag _ _ _ _ _ _ _ _ _ _ _ Hrun Hnew Hlive)
    as (-> & Hbuffer & Htag & Hstrings & evs1 & Htrace1 & Hquiet1 & Hpath).
  destruct (native_memory_types_distinct) as (Hcp & Hcg & Hpg).
  destruct (ResponseRelease_calls TRITON_ENABLE_GPU rt allocator' (buffer out')
              (buffer_userp out') byte_size' (actual_memory_type out')
              (actual_memory_type_id out') w1 (or_intror Hlive))
    as (w2 & logs & sw & Hrelease & Htrace2 & Hstrings2 & Hlogs & Hsw).
  apply Z.eqb_neq in Htag as Htagb. rewrite Htagb in Htrace2, Hstrings2.
  assert (Hcontent : default "" (strings w1 !! buffer_userp out')
                     = tensor_name).
  { by rewrite Hstrings, lookup_insert_eq. }
  rewrite Hcontent in Htrace2.
  destruct (release_switch_calls_deallocators _ _ _ _ _ Hsw)
    as (_ & _ & Hkind & _ & Hcpu & _ & _ & _ & Hodd).
  eexists w2, evs1, _. split; [exact Hrelease|]. split; [exact Htrace1|].
  split; [exact Htrace2|]. split_and!.
  - by rewrite Hstrings2, Hstrings, delete_insert_id.
  - apply list_elem_of_here.
  - intros Hin.
    assert (Hin' : ev_cerr unexpected_buffer_line ∈ sw).
    { eapply (release_event_of_switch _ []); [exact Hin|auto|exact Hlogs|..];
        done. }
    destruct (Hodd Hin') as [Hne Hcase].
    destruct Hpath as [[? _]|[[? _]|[? _]]]; congruence.
  - exact Hquiet1.
  - intros e He Hd.
    assert (Hin : e ∈ sw).
    { eapply (release_event_of_switch _ []); [exact He|auto|exact Hlogs|..];
        by destruct e. }
    destruct (Hkind e Hin Hd) as [[-> Hty]|[[err [-> Hty]]|[err [-> Hty]]]];
      destruct Hpath as [[Hty' ?]|[(_ & Hty' & ?)|(_ & Hty' & ?)]];
      try congruence; eauto.
  - intros Hty. rewrite (Hcpu Hty). cbn.
    apply list_elem_of_further. rewrite !elem_of_app. right.
    apply list_elem_of_here.
Qed.

(** X10. A tag never comes without a buffer.  [ResponseAlloc] either leaves
    the tags as they were, or it returns success having created exactly one
    tag, which holds the tensor name and is handed out in [buffer_userp]
    together with a non-null [buffer]. *)
Theorem ResponseAlloc_tag_comes_with_buffer (allocator : Z)
    (tensor_name : string) (byte_size : Z)
    (preferred_memory_type preferred_memory_type_id userp : Z)
    (out : AllocOut) (w : World) :
  ∃ r out' w',
    ResponseAlloc TRITON_ENABLE_GPU rt allocator tensor_name byte_size
      preferred_memory_type preferred_memory_type_id userp out w
    = Normal (r, out') w' ∧
    (strings w' = strings w ∨
     (r = None ∧ buffer out' ≠ nullptr ∧ buffer_userp out' ≠ nullptr ∧
      strings w !! buffer_userp out' = None ∧
      strings w' = <[buffer_userp out' := tensor_name]> (strings w))).
Proof.
  cut (runs (ResponseAlloc TRITON_ENABLE_GPU rt allocator tensor_name
               byte_size preferred_memory_type preferred_memory_type_id
               userp out) w
         (λ a w' _,
            strings w' = strings w ∨
            (a.1 = None ∧ buffer a.2 ≠ nullptr ∧ buffer_userp a.2 ≠ nullptr ∧
             strings w !! buffer_userp a.2 = None ∧
             strings w' = <[buffer_userp a.2 := tensor_name]> (strings w)))).
  { intros ([r out'] & w' & evs & Hrun & _ & HQ). by exists r, out', w'. }
  unfold ResponseAlloc, publish_allocation.
  run_all rt; cbn.
  all: repeat match goal with
         | p := new_returns rt ?w0 |- _ =>
             let Hp := fresh "Hp" in
             pose proof (new_returns_fresh rt w0) as Hp;
             fold p in Hp; cbn in Hp; clearbody p
         | x := _ |- _ => clearbody x
         end.
  all: path_facts.
  all: first [ by left | right; by destruct Hp ].
Qed.

End AllocReleaseFacts.


(** ** More on [InferResponseComplete] *)

Section MoreCompletionFacts.

(** What one firing that ends in a world leaves unchanged. *)
Lemma InferResponseComplete_effects response flags userp w w' :
  final_world (InferResponseComplete response flags userp w) = Some w' →
  strings w' = strings w ∧
  (∀ p s, promises w' !! p = Some s → promises w !! p = Some s) ∧
  (∀ s, shared_states w' !! s = Some Pending →
        shared_states w !! s = Some Pending) ∧
  (∀ s v, shared_states w !! s = Some (Ready v) →
          shared_states w' !! s = Some (Ready v)) ∧
  (∀ s, shared_states w' !! s = Some Broken →
        shared_states w !! s = Some Broken).
Proof.
  unfold InferResponseComplete.
  destruct (response =? nullptr); cbn; [by intros [= <-]|].
  unfold bind, promise_set_value, delete_promise.
  destruct (promises w !! userp) as [s0|] eqn:Hp; [|done].
  destruct (shared_states w !! s0) as [[| |]|] eqn:Hs;
    try (cbn; by intros [= <-]).
  cbn. rewrite Hp. cbn. rewrite lookup_insert_eq.
  assert (Hstates : ∀ s st,
    <[s0 := Ready response]> (shared_states w) !! s = Some st →
    st = Ready response ∧ s = s0 ∨ shared_states w !! s = Some st).
  { intros s st. destruct (decide (s0 = s)) as [->|Hne].
    - rewrite lookup_insert_eq. intros [= <-]. auto.
    - rewrite lookup_insert_ne by done. auto. }
  destruct (userp =? nullptr); cbn; intros [= <-]; cbn.
  all: split_and!; try done.
  all: try (intros p s Hps; apply lookup_delete_Some in Hps; tauto).
  all: try (intros s Hst; apply Hstates in Hst as [[? ?]|?]; done).
  all: intros s v Hst; rewrite lookup_insert_ne; [done|congruence].
Qed.

(** A firing with a non-null response returns only on a promise that can
    still take one, and leaves it spent. *)
Lemma InferResponseComplete_spends response flags userp w w' :
  response ≠ nullptr →
  InferResponseComplete response flags userp w = Normal tt w' →
  ¬ spent w userp ∧ spent w' userp.
Proof.
  intros Hresponse. unfold InferResponseComplete.
  apply Z.eqb_neq in Hresponse. rewrite Hresponse. cbn.
  unfold bind, promise_set_value, delete_promise, spent.
  destruct (promises w !! userp) as [s0|] eqn:Hp; [|done].
  destruct (shared_states w !! s0) as [[| |]|] eqn:Hs; try done.
  cbn. rewrite Hp. cbn. rewrite lookup_insert_eq.
  destruct (userp =? nullptr) eqn:Hnull; cbn; intros [= <-]; cbn.
  - split; [intros Hspent; by apply (Hspent s0)|].
    intros s. rewrite Hp. intros [= <-]. by rewrite lookup_insert_eq.
  - split; [intros Hspent; by apply (Hspent s0)|].
    intros s. by rewrite lookup_delete_eq.
Qed.

Lemma spent_stays response flags userp w w' p :
  final_world (InferResponseComplete response flags userp w) = Some w' →
  spent w p → spent w' p.
Proof.
  intros Hend Hspent s Hp Hs.
  destruct (InferResponseComplete_effects _ _ _ _ _ Hend)
    as (_ & Hpromises & Hpending & _).
  apply (Hspent s); auto.
Qed.

Lemma fire_completions_cons c calls w :
  fire_completions (c :: calls) w
  = match InferResponseComplete c.1.1 c.1.2 c.2 w with
    | Normal _ w1 => fire_completions calls w1
    | Throws what w1 => Throws what w1
    | Undefined => Undefined
    end.
Proof. reflexivity. Qed.

(** X11. A firing with a null response changes nothing in a run: firing a
    list of completions is firing the non-null ones among them. *)
Theorem fire_completions_skips_null (calls : list (Z * Z * Z)) (w : World) :
  fire_completions calls w
  = fire_completions (filter (λ c : Z * Z * Z, c.1.1 ≠ nullptr) calls) w.
Proof.
  revert w. induction calls as [|[[response flags] userp] calls IH];
    intros w; [done|].
  destruct (decide (response = nullptr)) as [->|Hne].
  - rewrite filter_cons_False by (cbn; auto).
    rewrite fire_completions_cons. cbn. apply IH.
  - rewrite filter_cons_True by done.
    rewrite !fire_completions_cons. cbn.
    destruct (InferResponseComplete response flags userp w); auto.
Qed.

(** X12. However the callback is fired, a run that ends in a world has kept
    every response already delivered, has broken no promise (a shared state
    is broken afterwards only if it was before), has made no state pending
    again, has created no promise and has left the tags alone. *)
Theorem fire_completions_keeps_delivered (calls : list (Z * Z * Z))
    (w w' : World) :
  final_world (fire_completions calls w) = Some w' →
  strings w' = strings w ∧
  (∀ p s, promises w' !! p = Some s → promises w !! p = Some s) ∧
  (∀ s, shared_states w' !! s = Some Pending →
        shared_states w !! s = Some Pending) ∧
  (∀ s v, shared_states w !! s = Some (Ready v) →
          shared_states w' !! s = Some (Ready v)) ∧
  (∀ s, shared_states w' !! s = Some Broken →
        shared_states w !! s = Some Broken).
Proof.
  revert w. induction calls as [|[[response flags] userp] calls IH];
    intros w Hend.
  - cbn in Hend. by injection Hend as <-.
  - rewrite fire_completions_cons in Hend. cbn in Hend.
    destruct (InferResponseComplete response flags userp w) as [[] w1|what w1|]
      eqn:Hfirst; [| |done].
    + assert (Hone : final_world
                (InferResponseComplete response flags userp w) = Some w1)
        by (by rewrite Hfirst).
      apply InferResponseComplete_effects in Hone
        as (Hs1 & Hp1 & Hpend1 & Hready1 & Hbroken1).
      apply IH in Hend as (Hs2 & Hp2 & Hpend2 & Hready2 & Hbroken2).
      split_and!; [congruence|auto..].
    + cbn in Hend. injection Hend as <-.
      apply (InferResponseComplete_effects response flags userp).
      by rewrite Hfirst.
Qed.

(** X13. One response per request.  In a run that returns normally no
    promise address was handed a non-null response twice, and every one
    that was handed one held a promise still pending at the start: a second
    non-null response for the same request never returns normally. *)
Theorem fire_completions_answers_once (calls : list (Z * Z * Z))
    (w w' : World) :
  fire_completions calls w = Normal tt w' →
  NoDup (answered calls) ∧
  Forall (λ p, ¬ spent w p) (answered calls) ∧
  Forall (λ p, spent w' p) (answered calls).
Proof.
  unfold answered. revert w.
  induction calls as [|[[response flags] userp] calls IH]; intros w Hrun.
  - cbn. split_and!; constructor.
  - rewrite fire_completions_cons in Hrun. cbn in Hrun.
    destruct (InferResponseComplete response flags userp w) as [[] w1|what w1|]
      eqn:Hfirst; [|done|done].
    assert (Hend : final_world
              (InferResponseComplete response flags userp w) = Some w1)
      by (by rewrite Hfirst).
    destruct (IH w1 Hrun) as (Hnodup & Hfresh & Hspent).
    assert (Hkeep : ∀ p, ¬ spent w1 p → ¬ spent w p).
    { intros p Hp Hsp. apply Hp. by eapply spent_stays. }
    destruct (decide (response = nullptr)) as [->|Hne].
    + rewrite filter_cons_False by (cbn; auto).
      split_and!; [done| |done].
      eapply Forall_impl; [exact Hfresh|]. exact Hkeep.
    + rewrite filter_cons_True by done. cbn.
      destruct (InferResponseComplete_spends _ _ _ _ _ Hne Hfirst)
        as [Hlive Hdead].
      split_and!.
      * apply NoDup_cons. split; [|done]. intros Hin.
        by apply (proj1 (Forall_forall _ _) Hfresh) in Hin.
      * constructor; [done|].
        eapply Forall_impl; [exact Hfresh|]. exact Hkeep.
      * constructor; [|done].
        clear -Hdead Hrun. revert w1 Hdead Hrun.
        induction calls as [|[[r f] u] calls IHc]; intros w1 Hdead Hrun.
        -- cbn in Hrun. by injection Hrun as <-.
        -- rewrite fire_completions_cons in Hrun. cbn in Hrun.
           destruct (InferResponseComplete r f u w1) as [[] w2|what w2|]
             eqn:Hstep; [|done|done].
           eapply IHc; [|exact Hrun].
           eapply spent_stays; [|exact Hdead]. by rewrite Hstep.
Qed.

End MoreCompletionFacts.

(** ** The logging and error macros *)

Section MacroFacts.
Context `{NativeHeaders}.
Variable rt : Runtime.

Lemma triton_error_text_not_empty (e : TRITONSERVER_Error) :
  IsOk (mkError (triton_error_text e)) = false.
Proof.
  unfold triton_error_text.
  by destruct (TRITONSERVER_ErrorCodeString e).
Qed.

(** X14. [LOG_MESSAGE] always returns and only logs.  It asks the native log
    once for the message given; if that fails it asks once more, at error
    level, to report the failure, and never a third time; and it deletes
    every error the log returned, the first one last. *)
Theorem LOG_MESSAGE_logs_at_most_twice (LEVEL : Z) (MSG : string) (w : World) :
  let first := TRITONSERVER_LogMessage_returns rt w LEVEL MSG in
  let second e :=
    TRITONSERVER_LogMessage_returns rt (record (ev_LogMessage LEVEL MSG) w)
      TRITONSERVER_LOG_ERROR
      ("failed to log message: " +:+ ": " +:+ TRITONSERVER_ErrorCodeString e
       +:+ " - " +:+ TRITONSERVER_ErrorMessage e) in
  ∃ evs,
    LOG_MESSAGE rt LEVEL MSG w = Normal tt (extend evs w) ∧
    head evs = Some (ev_LogMessage LEVEL MSG) ∧
    Forall (λ e, is_log_call e = true) evs ∧
    length (filter (λ e, is_LogMessage e = true) evs)
    = (if first is Some _ then 2%nat else 1%nat) ∧
    deleted_errors evs
    = (if first is Some e then option_list (second e) ++ [e] else []).
Proof.
  intros first second. subst first second.
  unfold LOG_MESSAGE, LOG_IF_ERROR, IGNORE_ERROR, TRITONSERVER_LogMessage,
    TRITONSERVER_ErrorDelete, emit, bind, ret.
  destruct (TRITONSERVER_LogMessage_returns rt w LEVEL MSG) as [e|].
  - destruct (TRITONSERVER_LogMessage_returns rt _ _ _) as [e2|];
      rewrite !record_extend, !extend_extend;
      (eexists; split; [reflexivity|]); cbn; split_and!; try done;
      by repeat constructor.
  - rewrite record_extend. eexists; split; [reflexivity|].
    cbn. split_and!; try done. by repeat constructor.
Qed.

(** X15. The macros on native errors never turn a failure into a success.
    When [X] yields a native error, [RETURN_ERR_IF_TRITON_ERR] returns an
    [Error] that is not ok, even if the native message is empty, and the
    two throwing macros throw: all three carry the text
    code-string ["-"] message newline, and all three have deleted the
    native error, once.  When [X] yields no error, all three fall through
    and add nothing.  The two throwing macros are interchangeable. *)
Theorem native_error_macros (X : M (option TRITONSERVER_Error))
    (w w1 : World) (r : option TRITONSERVER_Error) :
  X w = Normal r w1 →
  match r with
  | Some e =>
      let w2 := record (ev_ErrorDelete e) w1 in
      RETURN_ERR_IF_TRITON_ERR X w
      = Normal (Some (mkError (triton_error_text e))) w2 ∧
      IsOk (mkError (triton_error_text e)) = false ∧
      THROW_IF_TRITON_ERR X w = Throws (triton_error_text e) w2 ∧
      THROW_ERR_IF_TRITON_ERR X w = Throws (triton_error_text e) w2
  | None =>
      RETURN_ERR_IF_TRITON_ERR X w = Normal None w1 ∧
      THROW_IF_TRITON_ERR X w = Normal tt w1 ∧
      THROW_ERR_IF_TRITON_ERR X w = Normal tt w1
  end.
Proof.
  intros HX.
  unfold RETURN_ERR_IF_TRITON_ERR, THROW_IF_TRITON_ERR,
    THROW_ERR_IF_TRITON_ERR, bind.
  rewrite HX. destruct r as [e|]; cbn; [|done].
  split_and!; try done. apply triton_error_text_not_empty.
Qed.


End MacroFacts.

(** ** [InferRequestComplete] *)

Section RequestCallbackFacts.
Context `{NativeHeaders}.
Variable rt : Runtime.
Variable TRITONSERVER_InferenceRequestDelete : Z → M (option TRITONSERVER_Error).

(** X17. The request-release callback swallows a failed deletion.  For a
    null request it does nothing at all.  For any other request it returns
    whenever the native deletion returns: with nothing added when the
    deletion succeeded, and otherwise having logged, at error level, the
    failure with its code string and message and having deleted the error
    returned, last of all. *)
Theorem InferRequestComplete_swallows_failure (request flags userp : Z)
    (w : World) :
  (request = nullptr →
     InferRequestComplete rt TRITONSERVER_InferenceRequestDelete
       request flags userp w = Normal tt w) ∧
  (request ≠ nullptr →
     ∀ r w1, TRITONSERVER_InferenceRequestDelete request w = Normal r w1 →
       ∃ evs,
         InferRequestComplete rt TRITONSERVER_InferenceRequestDelete
           request flags userp w = Normal tt (extend evs w1) ∧
         match r with
         | None => evs = []
         | Some e =>
             ∃ disposed,
               evs = ev_LogMessage TRITONSERVER_LOG_ERROR
                       ("Failed to delete inference request." +:+ ": " +:+
                        TRITONSERVER_ErrorCodeString e +:+ " - " +:+
                        TRITONSERVER_ErrorMessage e)
                     :: disposed ++ [ev_ErrorDelete e] ∧
               deleted_errors evs
               = option_list
                   (TRITONSERVER_LogMessage_returns rt w1
                      TRITONSERVER_LOG_ERROR
                      ("Failed to delete inference request." +:+ ": " +:+
                       TRITONSERVER_ErrorCodeString e +:+ " - " +:+
                       TRITONSERVER_ErrorMessage e)) ++ [e]
         end).
Proof.
  unfold InferRequestComplete. split.
  - intros ->. reflexivity.
  - intros Hrequest r w1 Hdelete. apply Z.eqb_neq in Hrequest.
    rewrite Hrequest. cbn.
    unfold LOG_IF_ERROR, IGNORE_ERROR, TRITONSERVER_LogMessage,
      TRITONSERVER_ErrorDelete, emit, bind, ret.
    rewrite Hdelete. destruct r as [e|].
    + destruct (TRITONSERVER_LogMessage_returns rt w1 _ _) as [e2|] eqn:Hlog;
        rewrite !record_extend, !extend_extend;
        (eexists; split; [reflexivity|]); cbn.
      * by exists [ev_ErrorDelete e2].
      * by exists [].
    + exists []. split; [|done]. destruct w1; unfold extend; cbn.
      by rewrite app_nil_r.
Qed.

End RequestCallbackFacts.

(** ** [InferRequestedOutput] *)

Section RequestedOutputFacts.
Context `{NativeHeaders}.
Variable WrapperToTritonMemoryType : Z → Z → Error * Z.

(** X18. [Create] for a pre-allocated buffer never lets its uninitialised
    local show.  Provided the translator's verdict does not depend on what
    the output cell held and its output on success does not either, the
    result of [Create] is the same whatever the local held: on failure the
    translator's error with [infer_output] left as it was, on success a new
    object holding the name, buffer, size and id given and the translated
    memory type. *)
Theorem Create_ignores_its_uninitialised_local
    (infer_output : option InferRequestedOutput) (name : string)
    (buffer byte_size memory_type memory_type_id : Z) (junk junk' : Z) :
  (∀ c c' m, (WrapperToTritonMemoryType c m).1
             = (WrapperToTritonMemoryType c' m).1) →
  (∀ c c' m, IsOk (WrapperToTritonMemoryType c m).1 = true →
             (WrapperToTritonMemoryType c m).2
             = (WrapperToTritonMemoryType c' m).2) →
  let create :=
    InferRequestedOutput_Create_preallocated WrapperToTritonMemoryType
      infer_output name buffer byte_size memory_type memory_type_id in
  let verdict := WrapperToTritonMemoryType junk memory_type in
  create junk = create junk' ∧
  (if IsOk verdict.1 then
     create junk
     = (Error_Success,
        Some (mkInferRequestedOutput name buffer byte_size verdict.2
                memory_type_id))
   else create junk = (verdict.1, infer_output)).
Proof.
  intros Hverdict Houtput create verdict. subst create verdict.
  unfold InferRequestedOutput_Create_preallocated, RETURN_IF_ERR.
  rewrite (Hverdict junk' junk).
  destruct (IsOk (WrapperToTritonMemoryType junk memory_type).1) eqn:Hok; cbn.
  - split; [|done]. by rewrite (Houtput junk junk').
  - split; [done|]. by destruct (WrapperToTritonMemoryType junk memory_type).1.
Qed.

End RequestedOutputFacts.

(** ** The further properties at work *)

Lemma MemoryTypeString_names_supported_types_witness :
  MemoryTypeString GPU = MemoryTypeString 2 ∧
  MemoryTypeString GPU ≠ "<invalid>" ∧ GPU = 2.
Proof.
  assert (Hsame : MemoryTypeString GPU = MemoryTypeString 2) by reflexivity.
  assert (Hname : MemoryTypeString GPU ≠ "<invalid>") by (vm_compute; congruence).
  split_and!; [exact Hsame|exact Hname|].
  exact (proj2 (@MemoryTypeString_names_supported_types tritonserver_h 0 GPU)
           2 Hsame Hname).
Defined.

Lemma ResponseAlloc_reported_memory_type_witness :
  16 ≠ 0 ∧
  ∃ r out' w',
    ResponseAlloc (H := tritonserver_h) true runtime_healthy
      0 "OUTPUT0" 16 7 3 0 no_output empty_world = Normal (r, out') w' ∧
    (actual_memory_type out' = 0 ∨
     has_device_case (H := tritonserver_h) true (actual_memory_type out')
     = true).
Proof.
  assert (Hsize : 16 ≠ 0) by lia.
  split; [exact Hsize|].
  destruct (@ResponseAlloc_reported_memory_type tritonserver_h true
              runtime_healthy 0 "OUTPUT0" 16 7 3 0 no_output empty_world)
    as (r & out' & w' & Hrun & _ & Hcase).
  exists r, out', w'. split; [exact Hrun|]. exact (Hcase Hsize).
Defined.

Lemma ResponseAlloc_allocator_discipline_witness :
  16 ≠ 0 ∧
  ∃ r out' w' evs,
    ResponseAlloc (H := tritonserver_h) true runtime_healthy
      0 "OUTPUT0" 16 1 3 0 no_output empty_world = Normal (r, out') w' ∧
    trace w' = trace empty_world ++ evs ∧
    (length (filter (λ e, is_allocator_call e = true) evs) ≤ 1)%nat.
Proof.
  assert (Hsize : 16 ≠ 0) by lia.
  split; [exact Hsize|].
  destruct (@ResponseAlloc_allocator_discipline tritonserver_h true
              runtime_healthy 0 "OUTPUT0" 16 1 3 0 no_output empty_world
              Hsize)
    as (r & out' & w' & evs & Hrun & Htrace & Hlen & _).
  by exists r, out', w', evs.
Defined.

Lemma ResponseRelease_deallocator_discipline_witness :
  (nullptr = nullptr ∨ is_Some (strings empty_world !! nullptr)) ∧
  ∃ w' evs,
    ResponseRelease (H := tritonserver_h) true runtime_healthy
      0 4096 nullptr 16 0 0 empty_world = Normal None w' ∧
    trace w' = trace empty_world ++ evs ∧
    ev_free 4096 ∈ evs.
Proof.
  assert (Htag : nullptr = nullptr ∨ is_Some (strings empty_world !! nullptr))
    by (left; reflexivity).
  split; [exact Htag|].
  destruct (@ResponseRelease_deallocator_discipline tritonserver_h true
              runtime_healthy 0 4096 nullptr 16 0 0 empty_world Htag)
    as (w' & evs & Hrun & Htrace & _ & _ & _ & Hfree).
  exists w', evs. split_and!; [exact Hrun|exact Htrace|].
  apply Hfree. reflexivity.
Defined.

(** The device that is selected is the memory type id converted to [int]:
    for the id [2^32 + 1] it is device 1. *)
Example ResponseRelease_selects_the_converted_device :
  ResponseRelease (H := tritonserver_h) true runtime_healthy
    0 8192 nullptr 16 2 4294967297 empty_world
  = Normal None
      (mkWorld ∅ ∅ ∅
         [ev_new_string "<unknown>" 1;
          ev_LogMessage 3
            "Releasing buffer 0x2000 of size 16 in GPU for result '<unknown>";
          ev_cudaSetDevice 1 0; ev_cudaFree 8192 0; ev_delete_string 1]).
Proof. vm_compute. reflexivity. Qed.

Lemma ResponseRelease_leaves_the_buffer_witness :
  (nullptr = nullptr ∨ is_Some (strings empty_world !! nullptr)) ∧
  (2 ≠ TRITONSERVER_MEMORY_CPU (NativeHeaders := tritonserver_h) ∧
   has_device_case (H := tritonserver_h) false 2 = false) ∧
  ∃ w' evs,
    ResponseRelease (H := tritonserver_h) false runtime_healthy
      0 4096 nullptr 16 2 0 empty_world = Normal None w' ∧
    Forall (λ e, is_deallocator_call e = false) evs.
Proof.
  assert (Htag : nullptr = nullptr ∨ is_Some (strings empty_world !! nullptr))
    by (left; reflexivity).
  assert (Hodd : 2 ≠ TRITONSERVER_MEMORY_CPU (NativeHeaders := tritonserver_h) ∧
                 has_device_case (H := tritonserver_h) false 2 = false)
    by (split; [vm_compute; congruence|reflexivity]).
  split; [exact Htag|]. split; [exact Hodd|].
  destruct (@ResponseRelease_leaves_the_buffer tritonserver_h false
              runtime_healthy 0 4096 nullptr 16 2 0 empty_world Htag)
    as (w' & evs & Hrun & _ & Hleak).
  exists w', evs. split; [exact Hrun|].
  exact (proj1 (Hleak (or_introl Hodd))).
Defined.

Lemma ResponseRelease_after_ResponseAlloc_witness :
  let w1 :=
    mkWorld {[1 := "OUTPUT0"]} ∅ ∅
      [ev_cudaSetDevice 0 0; ev_cudaMalloc 16 0 8192;
       ev_new_string "OUTPUT0" 1;
       ev_LogMessage 3 "allocated 16 bytes in GPU for result tensor OUTPUT0"] in
  let out' := mkAllocOut 8192 1 2 0 in
  (ResponseAlloc (H := tritonserver_h) true runtime_healthy
     0 "OUTPUT0" 16 2 0 0 no_output empty_world = Normal (None, out') w1 ∧
   strings empty_world !! buffer_userp out' = None ∧
   is_Some (strings w1 !! buffer_userp out')) ∧
  ∃ w2,
    ResponseRelease (H := tritonserver_h) true runtime_healthy
      0 8192 1 16 2 0 w1 = Normal None w2 ∧
    strings w2 = strings empty_world.
Proof.
  intros w1 out'.
  assert (Hrun : ResponseAlloc (H := tritonserver_h) true runtime_healthy
                   0 "OUTPUT0" 16 2 0 0 no_output empty_world
                 = Normal (None, out') w1) by (vm_compute; reflexivity).
  assert (Hnew : strings empty_world !! buffer_userp out' = None)
    by reflexivity.
  assert (Hlive : is_Some (strings w1 !! buffer_userp out'))
    by (exists "OUTPUT0"; reflexivity).
  split; [done|].
  destruct (@ResponseRelease_after_ResponseAlloc tritonserver_h true
              runtime_healthy 0 "OUTPUT0" 16 2 0 0 no_output empty_world
              None out' w1 0 16 Hrun Hnew Hlive)
    as (w2 & evs1 & evs2 & Hrelease & _ & _ & Hstrings & _).
  by exists w2.
Defined.

Lemma fire_completions_keeps_delivered_witness :
  let w := mkWorld ∅ {[100 := 0%nat]} {[0%nat := Pending; 1%nat := Ready 5]} [] in
  let w' := mkWorld ∅ ∅ {[0%nat := Ready 7; 1%nat := Ready 5]}
              [ev_set_value 100 0 7; ev_delete_promise 100] in
  final_world (fire_completions [(0, 0, 100); (7, 0, 100)] w) = Some w' ∧
  shared_states w' !! 1%nat = Some (Ready 5).
Proof.
  intros w w'.
  assert (Hend : final_world (fire_completions [(0, 0, 100); (7, 0, 100)] w)
                 = Some w') by (vm_compute; reflexivity).
  split; [exact Hend|].
  destruct (fire_completions_keeps_delivered _ _ _ Hend)
    as (_ & _ & _ & Hready & _).
  apply Hready. reflexivity.
Defined.

Lemma fire_completions_answers_once_witness :
  let w := mkWorld ∅ {[100 := 0%nat; 200 := 1%nat]}
             {[0%nat := Pending; 1%nat := Pending]} [] in
  let w' := mkWorld ∅ ∅ {[0%nat := Ready 7; 1%nat := Ready 9]}
              [ev_set_value 100 0 7; ev_delete_promise 100;
               ev_set_value 200 1 9; ev_delete_promise 200] in
  fire_completions [(7, 0, 100); (0, 0, 100); (9, 0, 200)] w = Normal tt w' ∧
  NoDup (answered [(7, 0, 100); (0, 0, 100); (9, 0, 200)]).
Proof.
  intros w w'.
  assert (Hrun : fire_completions [(7, 0, 100); (0, 0, 100); (9, 0, 200)] w
                 = Normal tt w') by (vm_compute; reflexivity).
  split; [exact Hrun|].
  exact (proj1 (fire_completions_answers_once _ _ _ Hrun)).
Defined.

Lemma native_error_macros_witness :
  let busy := TRITONSERVER_ErrorNew 4 "busy" in
  ret (Some busy) empty_world = Normal (Some busy) empty_world ∧
  RETURN_ERR_IF_TRITON_ERR (H := tritonserver_h) (ret (Some busy)) empty_world
  = Normal (Some (mkError (triton_error_text (H := tritonserver_h) busy)))
      (record (ev_ErrorDelete busy) empty_world).
Proof.
  intros busy.
  assert (HX : ret (Some busy) empty_world = Normal (Some busy) empty_world)
    by reflexivity.
  split; [exact HX|].
  exact (proj1 (@native_error_macros tritonserver_h (ret (Some busy))
                  empty_world empty_world (Some busy) HX)).
Defined.

Lemma InferRequestComplete_swallows_failure_witness :
  let busy := TRITONSERVER_ErrorNew 4 "busy" in
  (5 ≠ nullptr ∧
   ret (Some busy) empty_world = Normal (Some busy) empty_world) ∧
  ∃ evs,
    InferRequestComplete (H := tritonserver_h) runtime_healthy
      (λ _, ret (Some busy)) 5 0 0 empty_world
    = Normal tt (extend evs empty_world).
Proof.
  intros busy.
  assert (Hrequest : 5 ≠ nullptr) by (unfold nullptr; lia).
  assert (Hdelete : ret (Some busy) empty_world
                    = Normal (Some busy) empty_world) by reflexivity.
  split; [done|].
  destruct (proj2 (@InferRequestComplete_swallows_failure tritonserver_h
                     runtime_healthy (λ _, ret (Some busy)) 5 0 0 empty_world)
              Hrequest (Some busy) empty_world Hdelete)
    as (evs & Hrun & _).
  by exists evs.
Defined.

Lemma ToTritonMemoryType_verdict_ignores_cell `{NativeHeaders} (c c' m : Z) :
  (ToTritonMemoryType c m).1 = (ToTritonMemoryType c' m).1 ∧
  (IsOk (ToTritonMemoryType c m).1 = true →
   (ToTritonMemoryType c m).2 = (ToTritonMemoryType c' m).2).
Proof. unfold ToTritonMemoryType. by repeat case_match. Qed.

Lemma Create_ignores_its_uninitialised_local_witness :
  InferRequestedOutput_Create_preallocated
    (ToTritonMemoryType (H := tritonserver_h)) None "OUTPUT0" 4096 16 GPU 0 77
  = InferRequestedOutput_Create_preallocated
      (ToTritonMemoryType (H := tritonserver_h)) None "OUTPUT0" 4096 16 GPU 0 0.
Proof.
  exact (proj1 (@Create_ignores_its_uninitialised_local
                  (ToTritonMemoryType (H := tritonserver_h))
                  None "OUTPUT0" 4096 16 GPU 0 77 0
                  (λ c c' m, proj1 (ToTritonMemoryType_verdict_ignores_cell
                                      (H := tritonserver_h) c c' m))
                  (λ c c' m, proj2 (ToTritonMemoryType_verdict_ignores_cell
                                      (H := tritonserver_h) c c' m)))).
Defined.
